(** * botocore.signers: the RequestSigner, embedded and verified

    A shallow embedding of [botocore/signers.py]: the auth-instance cache of
    [RequestSigner.get_auth], the in-place [sign] pipeline with its two
    events, and the two presign entry points [generate_url] and
    [build_post_form_args].

    Python objects whose identity matters (auth instances, the [fields]
    mapping handed to a POST presigner) live in stores and are named by
    their index; requests are threaded by value.  The collaborators defined
    in other modules (the registry [botocore.auth.AUTH_TYPE_MAPS], the event
    emitter, [create_request_object], [fix_s3_host], [add_auth], [prepare])
    are parameters of the development. *)

From Stdlib Require Import ZArith Lia Ascii String.
From stdpp Require Import gmap strings list fin_maps.

Open Scope string_scope.
Open Scope list_scope.

(** ** Strings *)

(** [str.endswith]: some tail of [s] is [suffix]. *)
Fixpoint endswith (s suffix : string) : bool :=
  if String.eqb s suffix then true
  else match s with
       | EmptyString => false
       | String _ s' => endswith s' suffix
       end.

(** The two-line idiom shared by [generate_url] and [build_post_form_args]:
    [if not signature_version.endswith(query_prefix):
         signature_version += query_prefix]. *)
Definition derive_variant (signature_version query_prefix : string) : string :=
  if negb (endswith signature_version query_prefix)
  then signature_version +:+ query_prefix
  else signature_version.

(** [s.split('-', 1)[0]]: the text before the first occurrence of [sep]. *)
Fixpoint split_head (sep : ascii) (s : string) : string :=
  match s with
  | EmptyString => EmptyString
  | String c s' => if Ascii.eqb c sep then EmptyString
                   else String c (split_head sep s')
  end.

(** [str.format] of an optional string: [None] prints as ["None"]. *)
Definition format_opt (o : option string) : string :=
  match o with
  | Some s => s
  | None => "None"
  end.

(** The cache key of [get_auth]:
    ['{0}.{1}.{2}'.format(signature_version, region_name, signing_name)]. *)
Definition cache_key (signature_version : string) (region_name : option string)
    (signing_name : string) : string :=
  signature_version +:+ "." +:+ format_opt region_name +:+ "." +:+ signing_name.

(** [has_char c s]: the character [c] occurs in [s]. *)
Fixpoint has_char (c : ascii) (s : string) : bool :=
  match s with
  | EmptyString => false
  | String d s' => if Ascii.eqb d c then true else has_char c s'
  end.

Definition dot : ascii := "."%char.

(** ** Dates: [datetime.datetime], [datetime.timedelta], [strftime] *)

Open Scope Z_scope.

(** A naive [datetime]: microseconds since 0001-01-01T00:00:00 of the
    proleptic Gregorian calendar. *)
Record datetime := { dt_us : Z }.

Definition us_per_second : Z := 1000000.
Definition seconds_per_day : Z := 86400.

(** [datetime.min] is 0001-01-01 and [datetime.max] is the last microsecond
    of 9999-12-31: 3652059 days in all. *)
Definition datetime_days : Z := 3652059.

Definition datetime_in_range (us : Z) : bool :=
  (0 <=? us) && (us <? datetime_days * seconds_per_day * us_per_second).

(** [datetime_now + datetime.timedelta(seconds=expires_in)]; [None] stands
    for the [OverflowError] Python raises when the sum leaves the range of
    [datetime]. *)
Definition datetime_add_seconds (d : datetime) (seconds : Z) : option datetime :=
  let us := dt_us d + seconds * us_per_second in
  if datetime_in_range us then Some {| dt_us := us |} else None.

(** Civil date of a day count from 0001-01-01 (day 0). *)
Definition civil_from_days (days : Z) : Z * Z * Z :=
  let z := days + 306 in
  let era := z / 146097 in
  let doe := z - era * 146097 in
  let yoe := (doe - doe / 1460 + doe / 36524 - doe / 146096) / 365 in
  let doy := doe - (365 * yoe + yoe / 4 - yoe / 100) in
  let mp := (5 * doy + 2) / 153 in
  let d := doy - (153 * mp + 2) / 5 + 1 in
  let m := if mp <? 10 then mp + 3 else mp - 9 in
  let y := yoe + era * 400 + (if m <=? 2 then 1 else 0) in
  (y, m, d).

Definition digit (n : Z) : ascii := ascii_of_nat (48 + Z.to_nat (n mod 10)).

(** The [width] low decimal digits of [n], zero padded. *)
Fixpoint zpad (width : nat) (n : Z) : string :=
  match width with
  | O => EmptyString
  | S w => zpad w (n / 10) +:+ String (digit n) EmptyString
  end.

Definition directive (c : ascii) (d : datetime) : option string :=
  let secs := dt_us d / us_per_second in
  let days := secs / seconds_per_day in
  let sod := secs mod seconds_per_day in
  let '(y, m, dd) := civil_from_days days in
  if Ascii.eqb c "Y" then Some (zpad 4 y)
  else if Ascii.eqb c "m" then Some (zpad 2 m)
  else if Ascii.eqb c "d" then Some (zpad 2 dd)
  else if Ascii.eqb c "H" then Some (zpad 2 (sod / 3600))
  else if Ascii.eqb c "M" then Some (zpad 2 (sod mod 3600 / 60))
  else if Ascii.eqb c "S" then Some (zpad 2 (sod mod 60))
  else None.

(** [datetime.strftime] for the directives [%Y %m %d %H %M %S]; every other
    character of the pattern is copied.  [%Y] prints four digits, the other
    directives two. *)
Fixpoint strftime (fmt : string) (d : datetime) : string :=
  match fmt with
  | EmptyString => EmptyString
  | String c rest =>
      if Ascii.eqb c "%" then
        match rest with
        | String k rest' =>
            match directive k d with
            | Some s => s +:+ strftime rest' d
            | None => String c (strftime rest d)
            end
        | EmptyString => String c EmptyString
        end
      else String c (strftime rest d)
  end.

(** Modelled from the spec: the constant [botocore.auth.ISO8601], which is
    not part of this module; the spec gives the pattern as
    [YYYY-MM-DDTHH:MM:SSZ]. *)
Definition ISO8601 : string := "%Y-%m-%dT%H:%M:%SZ"%string.

(** Day count of a civil date, for writing clock readings in examples. *)
Definition days_from_civil (y m d : Z) : Z :=
  let y' := if m <=? 2 then y - 1 else y in
  let era := y' / 400 in
  let yoe := y' - era * 400 in
  let mp := if m <=? 2 then m + 9 else m - 3 in
  let doy := (153 * mp + 2) / 5 + d - 1 in
  let doe := yoe * 365 + yoe / 4 - yoe / 100 + doy in
  era * 146097 + doe - 306.

Definition mk_datetime (y m d hh mm ss : Z) : datetime :=
  {| dt_us := ((days_from_civil y m d * seconds_per_day)
               + hh * 3600 + mm * 60 + ss) * us_per_second |}.

Close Scope Z_scope.

(** ** Python values of the module *)

Record Credentials := {
  access_key : string;
  secret_key : string;
  token : option string
}.

(** The caller's POST-policy conditions: mappings such as
    [{"acl": "public-read"}] or arrays such as
    [["content-length-range", 1, 10]]. *)
Inductive atom :=
| AStr (s : string)
| AInt (n : Z).

Inductive condition :=
| CondDict (l : list (string * atom))
| CondList (l : list atom).

(** The policy of a presigned POST: [policy['expiration']] and
    [policy['conditions']]. *)
Record Policy := {
  expiration : string;
  conditions : list condition
}.

(** Values stored in the side table [request.context]; a [fields] mapping is
    stored by reference (its index in the store of mappings). *)
Inductive ctx_value :=
| CtxFields (ref : nat)
| CtxPolicy (policy : Policy)
| CtxOther (v : atom).

(** Modelled from the spec: the request class of [botocore.awsrequest],
    which is not part of this module: method, URL, headers, query
    parameters, body and the free-form [context] side table. *)
Record Request := {
  method : string;
  url : string;
  headers : list (string * string);
  params : list (string * string);
  data : string;
  context : gmap string ctx_value
}.

(** [request.context[key] = v]. *)
Definition set_context (key : string) (v : ctx_value) (request : Request) : Request :=
  {| method := method request; url := url request; headers := headers request;
     params := params request; data := data request;
     context := <[key := v]> (context request) |}.

(** Keyword arguments handed to an auth constructor. *)
Inductive kwval :=
| KCredentials (c : Credentials)
| KStr (s : string)
| KNone
| KInt (n : Z).

Definition kw_of_opt (o : option string) : kwval :=
  match o with
  | Some s => KStr s
  | None => KNone
  end.

(** An entry of [botocore.auth.AUTH_TYPE_MAPS]: a signer class with its
    [REQUIRES_REGION] attribute and the parameters of its constructor, those
    without a default ([cls_required]) and those with one ([cls_optional]). *)
Record auth_cls := {
  cls_name : string;
  REQUIRES_REGION : bool;
  cls_required : list string;
  cls_optional : list string
}.

(** Whether the keyword arguments fit the constructor: every required
    parameter is given and every keyword is a parameter.  Python raises
    [TypeError] on a call whose arguments do not fit. *)
Definition binds (cls : auth_cls) (kwargs : gmap string kwval) : bool :=
  forallb (fun k => match kwargs !! k with Some _ => true | None => false end)
    (cls_required cls)
  && forallb (fun k => existsb (String.eqb k) (cls_required cls ++ cls_optional cls))
       (map fst (map_to_list kwargs)).

(** An auth instance, built by calling the class on the keyword
    arguments.  [auth_id] is the identity of the
    Python object: every construction yields a new one. *)
Record auth_instance := {
  auth_id : nat;
  auth_class : auth_cls;
  auth_kwargs : gmap string kwval
}.

(** Modelled from the spec: the sentinel [botocore.UNSIGNED], defined in the
    package's [__init__] and not part of this module: a value of its own
    that a choose-signer handler can answer and that is no string.  A
    signature version in [sign] is thus a string or the sentinel. *)
Inductive sigver :=
| SvStr (s : string)
| UNSIGNED.

(** The exceptions of the module's own code: the two it raises itself, the
    [OverflowError] of the date arithmetic and the [TypeError] of a class
    call whose keyword arguments do not fit. *)
Inductive exn :=
| UnknownSignatureVersionError (signature_version : string)
| NoRegionError
| OverflowError
| TypeError.

Inductive outcome (A : Type) :=
| Ok (a : A)
| Raise (e : exn).
Arguments Ok {A} a.
Arguments Raise {A} e.

(** The store of [fields] mappings; a mapping is named by its index. *)
Abbreviation dstore := (list (gmap string string)).

(** A call into a collaborator that may mutate the request it is given and
    the mappings reachable from it.  The collaborators of this type (the
    event handlers, [fix_s3_host], [add_auth], [prepare]) are taken to
    return: an exception of theirs would leave the calling method at that
    point, and is no part of this development. *)
Definition ext : Type := Request -> dstore -> Request * dstore.

(** ** The event emitter *)

(** Keyword arguments of the two events fired by [sign]. *)
Record choose_kwargs := {
  ck_signing_name : string;
  ck_region_name : option string;
  ck_signature_version : string
}.

Record before_kwargs := {
  bk_signing_name : string;
  bk_region_name : option string;
  bk_signature_version : sigver
}.

(** Modelled from the spec: the event emitter of [botocore.hooks], which is
    not part of this module.  For an event name it knows the handlers to
    call, in order.  A choose-signer handler answers [None] or a signature
    version; a before-sign handler mutates the request. *)
Record EventEmitter := {
  choose_signer_handlers : string -> list (choose_kwargs -> option sigver);
  before_sign_handlers : string -> list (before_kwargs -> ext)
}.

(** [emit_until_response]: the first response that is not [None]. *)
Fixpoint first_response {K : Type} (hs : list (K -> option sigver)) (kw : K)
    : option sigver :=
  match hs with
  | [] => None
  | h :: hs' =>
      match h kw with
      | Some r => Some r
      | None => first_response hs' kw
      end
  end.

Definition emit_until_response (em : EventEmitter) (name : string)
    (kw : choose_kwargs) : option sigver :=
  first_response (choose_signer_handlers em name) kw.

(** [emit]: every handler runs, in order; responses are ignored. *)
Fixpoint run_handlers {K : Type} (hs : list (K -> ext)) (kw : K) : ext :=
  fun request ds =>
    match hs with
    | [] => (request, ds)
    | h :: hs' => let '(request', ds') := h kw request ds in
                  run_handlers hs' kw request' ds'
    end.

Definition emit (em : EventEmitter) (name : string) (kw : before_kwargs) : ext :=
  run_handlers (before_sign_handlers em name) kw.

(** ** The signer and its mutable state *)

(** The attributes set once by [RequestSigner.__init__]. *)
Record RequestSigner := {
  _service_name : string;
  _region_name : option string;
  _signing_name : string;
  _signature_version : string;
  _credentials : Credentials;
  _event_emitter : EventEmitter
}.

(** What a call can observe of its collaborators, in program order. *)
Inductive event :=
| EvChooseSigner (name : string) (kw : choose_kwargs)
| EvBeforeSign (name : string) (kw : before_kwargs)
| EvCacheLookup (key : string)
| EvConstruct (auth : auth_instance)
| EvCreateRequest
| EvFixS3Host (signature_type : string) (region_name : option string)
| EvAddAuth (auth : auth_instance) (request : Request)
| EvPrepare.

(** The mutable state: [self._cache], the number of auth instances built so
    far (the next object identity), the store of [fields] mappings, and the
    log of collaborator calls. *)
Record world := {
  _cache : gmap string auth_instance;
  next_id : nat;
  dicts : dstore;
  trace : list event
}.

(** The state just after [RequestSigner.__init__]: [self._cache = {}]. *)
Definition new_world (ds : dstore) : world :=
  {| _cache := ∅; next_id := 0; dicts := ds; trace := [] |}.

(** Computations that read and write the state and may raise; the state
    reached when an exception is raised is kept. *)
Definition M (A : Type) : Type := world -> outcome A * world.

Definition raise {A : Type} (e : exn) : M A := fun w => (Raise e, w).

#[export] Instance M_ret : MRet M := fun A a w => (Ok a, w).

#[export] Instance M_bind : MBind M := fun A B k m w =>
  match m w with
  | (Ok a, w') => k a w'
  | (Raise e, w') => (Raise e, w')
  end.

Definition log (e : event) : M unit :=
  fun w => (Ok tt, {| _cache := _cache w; next_id := next_id w;
                      dicts := dicts w; trace := trace w ++ [e] |}).

(** [self._cache.get(key)], logged. *)
Definition cache_get (key : string) : M (option auth_instance) :=
  log (EvCacheLookup key);;
  (fun w => (Ok (_cache w !! key), w)) : M _.

(** [self._cache[key] = auth]. *)
Definition cache_set (key : string) (auth : auth_instance) : M unit :=
  fun w => (Ok tt, {| _cache := <[key := auth]> (_cache w); next_id := next_id w;
                      dicts := dicts w; trace := trace w |}).

(** Calling the class on the keyword arguments: a new object, with the next
    identity, or [TypeError] when the arguments do not fit the
    constructor.  Once the arguments are bound, the constructor is taken to
    return. *)
Definition construct (cls : auth_cls) (kwargs : gmap string kwval) : M auth_instance :=
  fun w =>
    if binds cls kwargs then
      let auth := {| auth_id := next_id w; auth_class := cls; auth_kwargs := kwargs |} in
      (Ok auth, {| _cache := _cache w; next_id := S (next_id w);
                   dicts := dicts w; trace := trace w ++ [EvConstruct auth] |})
    else (Raise TypeError, w).

(** Run a collaborator on a request and the store of mappings. *)
Definition call (f : ext) (request : Request) : M Request :=
  fun w =>
    let '(request', ds) := f request (dicts w) in
    (Ok request', {| _cache := _cache w; next_id := next_id w;
                     dicts := ds; trace := trace w |}).

(** A new empty mapping: [fields = {}]. *)
Definition new_dict : M nat :=
  fun w => (Ok (length (dicts w)),
            {| _cache := _cache w; next_id := next_id w;
               dicts := dicts w ++ [∅]; trace := trace w |}).

(** The loop [for condition in conditions: policy['conditions'].append(condition)],
    started from the empty list. *)
Definition append_all (conditions : list condition) : list condition :=
  fold_left (fun acc condition => (acc ++ [condition])%list) conditions [].

Section Signer.

(** The registry [botocore.auth.AUTH_TYPE_MAPS]. *)
Variable AUTH_TYPE_MAPS : gmap string auth_cls.

(** The request descriptions accepted by [create_request_object]. *)
Variable request_dict : Type.
Variable create_request_object : request_dict -> Request.

(** [fix_s3_host(request, signature_type, region_name)]. *)
Variable fix_s3_host : string -> option string -> ext.

(** [auth.add_auth(request)]. *)
Variable add_auth : auth_instance -> ext.

(** [request.prepare()]: whatever the call does to the request. *)
Variable prepare : ext.

Variable self : RequestSigner.

Definition get_auth (signing_name : string) (region_name : option string)
    (signature_version : option string) (kwargs : gmap string kwval)
    : M auth_instance :=
  let signature_version :=
    match signature_version with
    | None => _signature_version self
    | Some v => v
    end in
  let key := cache_key signature_version region_name signing_name in
  cached ← cache_get key;
  match cached with
  | Some auth => mret auth
  | None =>
      match AUTH_TYPE_MAPS !! signature_version with
      | None => raise (UnknownSignatureVersionError signature_version)
      | Some cls =>
          let kwargs := <["credentials" := KCredentials (_credentials self)]> kwargs in
          kwargs ←
            (if REQUIRES_REGION cls then
               match _region_name self with
               | None => raise NoRegionError
               | Some _ =>
                   let kwargs := <["region_name" := kw_of_opt region_name]> kwargs in
                   let kwargs := <["service_name" := KStr signing_name]> kwargs in
                   mret kwargs
               end
             else mret kwargs);
          auth ← construct cls kwargs;
          cache_set key auth;;
          mret auth
      end
  end.

Definition set_dicts (ds : dstore) (w : world) : world :=
  {| _cache := _cache w; next_id := next_id w; dicts := ds; trace := trace w |}.

Definition sign (operation_name : string) (request : Request) (w : world)
    : outcome unit * Request * world :=
  let signature_version := _signature_version self in
  let name := "choose-signer." +:+ _service_name self +:+ "." +:+ operation_name in
  let kw := {| ck_signing_name := _signing_name self;
               ck_region_name := _region_name self;
               ck_signature_version := signature_version |} in
  let '(_, w) := log (EvChooseSigner name kw) w in
  let response := emit_until_response (_event_emitter self) name kw in
  let signature_version :=
    match response with
    | Some r => r
    | None => SvStr signature_version
    end in
  let name := "before-sign." +:+ _service_name self +:+ "." +:+ operation_name in
  let kw := {| bk_signing_name := _signing_name self;
               bk_region_name := _region_name self;
               bk_signature_version := signature_version |} in
  let '(_, w) := log (EvBeforeSign name kw) w in
  let '(request, ds) := emit (_event_emitter self) name kw request (dicts w) in
  let w := set_dicts ds w in
  match signature_version with
  | UNSIGNED => (Ok tt, request, w)
  | SvStr v =>
      match get_auth (_signing_name self) (_region_name self) (Some v) ∅ w with
      | (Raise e, w) => (Raise e, request, w)
      | (Ok signer, w) =>
          let '(_, w) := log (EvAddAuth signer request) w in
          let '(request, ds) := add_auth signer request (dicts w) in
          (Ok tt, request, set_dicts ds w)
      end
  end.

Definition call_add_auth (auth : auth_instance) (request : Request) : M Request :=
  log (EvAddAuth auth request);;
  call (add_auth auth) request.

Definition generate_url (rd : request_dict) (expires_in : option Z)
    (region_name : option string) : M string :=
  let region_name :=
    match region_name with
    | None => _region_name self
    | Some r => Some r
    end in
  let query_prefix := "-query" in
  let signature_version := derive_variant (_signature_version self) query_prefix in
  let kwargs : gmap string kwval :=
    match expires_in with
    | Some e => {["expires" := KInt e]}
    | None => ∅
    end in
  auth ← get_auth (_signing_name self) region_name (Some signature_version) kwargs;
  log EvCreateRequest;;
  let request := create_request_object rd in
  let signature_type := split_head "-" signature_version in
  log (EvFixS3Host signature_type region_name);;
  request ← call (fix_s3_host signature_type region_name) request;
  request ← call_add_auth auth request;
  log EvPrepare;;
  request ← call prepare request;
  mret (url request).

(** [now] is the reading of [datetime.datetime.utcnow()]; [fields] names the
    caller's mapping, and the same name is returned. *)
Definition build_post_form_args (now : datetime) (rd : request_dict)
    (fields : option nat) (conditions : option (list condition))
    (expires_in : Z) (region_name : option string) : M (string * nat) :=
  fields ←
    match fields with
    | None => new_dict
    | Some f => mret f
    end;
  let conditions :=
    match conditions with
    | None => []
    | Some c => c
    end in
  let region_name :=
    match region_name with
    | None => _region_name self
    | Some r => Some r
    end in
  expire_date ←
    match datetime_add_seconds now expires_in with
    | None => raise OverflowError
    | Some d => mret d
    end;
  let policy := {| expiration := strftime ISO8601 expire_date;
                   conditions := append_all conditions |} in
  let query_prefix := "-presign-post" in
  let signature_version := derive_variant (_signature_version self) query_prefix in
  auth ← get_auth (_signing_name self) region_name (Some signature_version) ∅;
  log EvCreateRequest;;
  let request := create_request_object rd in
  let request := set_context "s3-presign-post-fields" (CtxFields fields) request in
  let request := set_context "s3-presign-post-policy" (CtxPolicy policy) request in
  request ← call_add_auth auth request;
  let signature_type := split_head "-" signature_version in
  log (EvFixS3Host signature_type region_name);;
  request ← call (fix_s3_host signature_type region_name) request;
  mret (url request, fields).

End Signer.

(** The default of the parameter [expires_in] of [build_post_form_args]. *)
Definition default_expires_in : Z := 3600.

(** ** Sample collaborators, for running the definitions *)

Definition SigV4Auth : auth_cls :=
  {| cls_name := "SigV4Auth"; REQUIRES_REGION := true;
     cls_required := ["credentials"; "service_name"; "region_name"];
     cls_optional := [] |}.
Definition SigV4QueryAuth : auth_cls :=
  {| cls_name := "SigV4QueryAuth"; REQUIRES_REGION := true;
     cls_required := ["credentials"; "service_name"; "region_name"];
     cls_optional := ["expires"] |}.
Definition HmacV1Auth : auth_cls :=
  {| cls_name := "HmacV1Auth"; REQUIRES_REGION := false;
     cls_required := ["credentials"];
     cls_optional := ["service_name"; "region_name"] |}.
Definition HmacV1QueryAuth : auth_cls :=
  {| cls_name := "HmacV1QueryAuth"; REQUIRES_REGION := false;
     cls_required := ["credentials"]; cls_optional := ["expires"] |}.
Definition HmacV1PostAuth : auth_cls :=
  {| cls_name := "HmacV1PostAuth"; REQUIRES_REGION := false;
     cls_required := ["credentials"];
     cls_optional := ["service_name"; "region_name"] |}.

(** A registry in the shape of [botocore.auth.AUTH_TYPE_MAPS]. *)
Definition sample_registry : gmap string auth_cls :=
  list_to_map [("v4", SigV4Auth); ("v4-query", SigV4QueryAuth);
               ("s3", HmacV1Auth); ("s3-query", HmacV1QueryAuth);
               ("s3-presign-post", HmacV1PostAuth)].

(** Request descriptions are plain endpoint URLs here. *)
Definition sample_create (endpoint : string) : Request :=
  {| method := "GET"; url := endpoint; headers := []; params := [];
     data := ""; context := ∅ |}.

Definition sample_fix_s3_host (signature_type : string) (region_name : option string) : ext :=
  fun request ds => (request, ds).

(** A stub strategy: it adds one query parameter named after its class and,
    when the request carries a [fields] mapping, one field to it. *)
Definition sample_add_auth (auth : auth_instance) : ext :=
  fun request ds =>
    let request' :=
      {| method := method request; url := url request; headers := headers request;
         params := (params request ++ [("Signature", cls_name (auth_class auth))])%list;
         data := data request; context := context request |} in
    match context request !! "s3-presign-post-fields" with
    | Some (CtxFields f) => (request', alter (fun d => <["signature" := "stub"]> d) f ds)
    | _ => (request', ds)
    end.

Fixpoint urlencode (ps : list (string * string)) : string :=
  match ps with
  | [] => ""
  | [(k, v)] => k +:+ "=" +:+ v
  | (k, v) :: ps' => k +:+ "=" +:+ v +:+ "&" +:+ urlencode ps'
  end.

(** Modelled from the spec: the finalize step of the request class, which is
    not part of this module; the spec has it serialize the query parameters
    into the URL string. *)
Definition sample_prepare : ext :=
  fun request ds =>
    match params request with
    | [] => (request, ds)
    | ps => ({| method := method request;
                url := url request +:+ "?" +:+ urlencode ps;
                headers := headers request; params := ps;
                data := data request; context := context request |}, ds)
    end.

Definition sample_credentials : Credentials :=
  {| access_key := "AKID"; secret_key := "SECRET"; token := None |}.

Definition no_handlers : EventEmitter :=
  {| choose_signer_handlers := fun _ => []; before_sign_handlers := fun _ => [] |}.

(** An emitter with one choose-signer handler, answering [response], and one
    before-sign handler, which sets a header. *)
Definition answering (response : option sigver) : EventEmitter :=
  {| choose_signer_handlers := fun _ => [fun _ => response];
     before_sign_handlers := fun _ =>
       [fun _ request ds =>
          ({| method := method request; url := url request;
              headers := (headers request ++ [("X-Seen", "yes")])%list;
              params := params request; data := data request;
              context := context request |}, ds)] |}.

Definition sample_signer (region : option string) (signing_name version : string)
    (em : EventEmitter) : RequestSigner :=
  {| _service_name := "s3"; _region_name := region; _signing_name := signing_name;
     _signature_version := version; _credentials := sample_credentials;
     _event_emitter := em |}.

Definition sample_request : Request := sample_create "https://bucket.s3.amazonaws.com/key".

(** * Properties *)

(** ** Variant suffixes *)

Lemma endswith_refl (s : string) : endswith s s = true.
Proof. destruct s; cbn [endswith]; rewrite String.eqb_refl; reflexivity. Qed.

Lemma endswith_app (s suffix : string) : endswith (s +:+ suffix) suffix = true.
Proof.
  induction s as [|c s IH].
  - change ("" +:+ suffix) with suffix. apply endswith_refl.
  - change (String c s +:+ suffix) with (String c (s +:+ suffix)).
    unfold endswith; fold endswith.
    destruct (String.eqb (String c (s +:+ suffix)) suffix); [reflexivity | exact IH].
Qed.

Lemma derive_variant_endswith (v suffix : string) :
  endswith (derive_variant v suffix) suffix = true.
Proof.
  unfold derive_variant.
  destruct (endswith v suffix) eqn:E; simpl; [exact E | apply endswith_app].
Qed.

Lemma derive_variant_fixed (v suffix : string) :
  endswith v suffix = true -> derive_variant v suffix = v.
Proof. intros E. unfold derive_variant. rewrite E. reflexivity. Qed.

Lemma derive_variant_idem (v suffix : string) :
  derive_variant (derive_variant v suffix) suffix = derive_variant v suffix.
Proof. apply derive_variant_fixed, derive_variant_endswith. Qed.

Example derive_v4_query : derive_variant "v4" "-query" = "v4-query".
Proof. reflexivity. Qed.

Example derive_v4_query_again : derive_variant "v4-query" "-query" = "v4-query".
Proof. reflexivity. Qed.

Example derive_s3_post : derive_variant "s3" "-presign-post" = "s3-presign-post".
Proof. reflexivity. Qed.

(** C5. The suffix rule of [generate_url] (suffix [-query]) and of
    [build_post_form_args] (suffix [-presign-post]) is idempotent: an
    identifier that already ends with the suffix is left as it is, so
    deriving twice gives what deriving once gives. *)
Theorem variant_suffix_idempotent (v : string) :
  derive_variant (derive_variant v "-query") "-query" = derive_variant v "-query"
  /\ derive_variant (derive_variant v "-presign-post") "-presign-post"
     = derive_variant v "-presign-post".
Proof. split; apply derive_variant_idem. Qed.

(** ** The cache of [get_auth] *)

(** The state after one more logged event. *)
Definition logged (e : event) (w : world) : world :=
  {| _cache := _cache w; next_id := next_id w; dicts := dicts w;
     trace := trace w ++ [e] |}.

(** The keyword arguments [get_auth] hands to the class [cls]. *)
Definition build_kwargs (credentials : Credentials) (cls : auth_cls)
    (signing_name : string) (region_name : option string)
    (kwargs : gmap string kwval) : gmap string kwval :=
  let kwargs := <["credentials" := KCredentials credentials]> kwargs in
  if REQUIRES_REGION cls
  then <["service_name" := KStr signing_name]>
         (<["region_name" := kw_of_opt region_name]> kwargs)
  else kwargs.

Section CacheFacts.

Variable AUTH_TYPE_MAPS : gmap string auth_cls.
Variable self : RequestSigner.

Local Abbreviation getAuth := (get_auth AUTH_TYPE_MAPS self).

Definition version_or_default (signature_version : option string) : string :=
  match signature_version with
  | None => _signature_version self
  | Some v => v
  end.

(** The key under which a call of [get_auth] looks. *)
Definition key_of (signing_name : string) (region_name : option string)
    (signature_version : option string) : string :=
  cache_key (version_or_default signature_version) region_name signing_name.

Lemma get_auth_hit sn rn sv kw w auth :
  _cache w !! key_of sn rn sv = Some auth ->
  getAuth sn rn sv kw w = (Ok auth, logged (EvCacheLookup (key_of sn rn sv)) w).
Proof.
  intros H. unfold get_auth, key_of, version_or_default in *.
  cbv [mbind M_bind cache_get log mret M_ret]. cbn [_cache].
  rewrite H. reflexivity.
Qed.

Lemma get_auth_unknown sn rn sv kw w :
  _cache w !! key_of sn rn sv = None ->
  AUTH_TYPE_MAPS !! version_or_default sv = None ->
  getAuth sn rn sv kw w
  = (Raise (UnknownSignatureVersionError (version_or_default sv)),
     logged (EvCacheLookup (key_of sn rn sv)) w).
Proof.
  intros H R. unfold get_auth, key_of, version_or_default in *.
  cbv [mbind M_bind cache_get log mret M_ret]. cbn [_cache].
  rewrite H, R. reflexivity.
Qed.

Lemma get_auth_no_region sn rn sv kw w cls :
  _cache w !! key_of sn rn sv = None ->
  AUTH_TYPE_MAPS !! version_or_default sv = Some cls ->
  REQUIRES_REGION cls = true ->
  _region_name self = None ->
  getAuth sn rn sv kw w
  = (Raise NoRegionError, logged (EvCacheLookup (key_of sn rn sv)) w).
Proof.
  intros H R Q N. unfold get_auth, key_of, version_or_default in *.
  cbv [mbind M_bind cache_get log mret M_ret]. cbn [_cache].
  rewrite H, R, Q, N. reflexivity.
Qed.

(** The instance a cache miss builds, and the state it leaves. *)
Definition built (cls : auth_cls) (sn : string) (rn : option string)
    (kw : gmap string kwval) (w : world) : auth_instance :=
  {| auth_id := next_id w; auth_class := cls;
     auth_kwargs := build_kwargs (_credentials self) cls sn rn kw |}.

Definition after_build (key : string) (auth : auth_instance) (w : world) : world :=
  {| _cache := <[key := auth]> (_cache w); next_id := S (next_id w);
     dicts := dicts w;
     trace := trace w ++ [EvCacheLookup key; EvConstruct auth] |}.

Lemma get_auth_build sn rn sv kw w cls :
  _cache w !! key_of sn rn sv = None ->
  AUTH_TYPE_MAPS !! version_or_default sv = Some cls ->
  (REQUIRES_REGION cls = true -> is_Some (_region_name self)) ->
  binds cls (build_kwargs (_credentials self) cls sn rn kw) = true ->
  getAuth sn rn sv kw w
  = (Ok (built cls sn rn kw w),
     after_build (key_of sn rn sv) (built cls sn rn kw w) w).
Proof.
  intros H R N B. unfold get_auth, key_of, version_or_default in *.
  cbv [mbind M_bind cache_get log mret M_ret]. cbn [_cache].
  rewrite H, R. unfold built, after_build, build_kwargs in *.
  destruct (REQUIRES_REGION cls) eqn:Q.
  - destruct (N eq_refl) as [r Hr]. rewrite Hr.
    cbv [construct cache_set]. rewrite B. cbn. rewrite <- app_assoc. reflexivity.
  - cbv [construct cache_set]. rewrite B. cbn. rewrite <- app_assoc. reflexivity.
Qed.

(** A cache miss whose keyword arguments do not fit the class. *)
Lemma get_auth_type_error sn rn sv kw w cls :
  _cache w !! key_of sn rn sv = None ->
  AUTH_TYPE_MAPS !! version_or_default sv = Some cls ->
  (REQUIRES_REGION cls = true -> is_Some (_region_name self)) ->
  binds cls (build_kwargs (_credentials self) cls sn rn kw) = false ->
  getAuth sn rn sv kw w
  = (Raise TypeError, logged (EvCacheLookup (key_of sn rn sv)) w).
Proof.
  intros H R N B. unfold get_auth, key_of, version_or_default in *.
  cbv [mbind M_bind cache_get log mret M_ret]. cbn [_cache].
  rewrite H, R. unfold build_kwargs in *.
  destruct (REQUIRES_REGION cls) eqn:Q.
  - destruct (N eq_refl) as [r Hr]. rewrite Hr.
    cbv [construct]. rewrite B. reflexivity.
  - cbv [construct]. rewrite B. reflexivity.
Qed.

(** The five ways a call of [get_auth] can go. *)
Inductive get_auth_case (sn : string) (rn : option string) (sv : option string)
    (kw : gmap string kwval) (w : world) : outcome auth_instance * world -> Prop :=
| case_hit auth :
    _cache w !! key_of sn rn sv = Some auth ->
    get_auth_case sn rn sv kw w
      (Ok auth, logged (EvCacheLookup (key_of sn rn sv)) w)
| case_unknown :
    _cache w !! key_of sn rn sv = None ->
    AUTH_TYPE_MAPS !! version_or_default sv = None ->
    get_auth_case sn rn sv kw w
      (Raise (UnknownSignatureVersionError (version_or_default sv)),
       logged (EvCacheLookup (key_of sn rn sv)) w)
| case_no_region cls :
    _cache w !! key_of sn rn sv = None ->
    AUTH_TYPE_MAPS !! version_or_default sv = Some cls ->
    REQUIRES_REGION cls = true ->
    _region_name self = None ->
    get_auth_case sn rn sv kw w
      (Raise NoRegionError, logged (EvCacheLookup (key_of sn rn sv)) w)
| case_type_error cls :
    _cache w !! key_of sn rn sv = None ->
    AUTH_TYPE_MAPS !! version_or_default sv = Some cls ->
    (REQUIRES_REGION cls = true -> is_Some (_region_name self)) ->
    binds cls (build_kwargs (_credentials self) cls sn rn kw) = false ->
    get_auth_case sn rn sv kw w
      (Raise TypeError, logged (EvCacheLookup (key_of sn rn sv)) w)
| case_built cls :
    _cache w !! key_of sn rn sv = None ->
    AUTH_TYPE_MAPS !! version_or_default sv = Some cls ->
    (REQUIRES_REGION cls = true -> is_Some (_region_name self)) ->
    binds cls (build_kwargs (_credentials self) cls sn rn kw) = true ->
    get_auth_case sn rn sv kw w
      (Ok (built cls sn rn kw w),
       after_build (key_of sn rn sv) (built cls sn rn kw w) w).

Lemma get_auth_cases sn rn sv kw w :
  get_auth_case sn rn sv kw w (getAuth sn rn sv kw w).
Proof.
  destruct (_cache w !! key_of sn rn sv) as [auth|] eqn:Hc.
  { rewrite (get_auth_hit _ _ _ kw _ _ Hc). apply case_hit, Hc. }
  destruct (AUTH_TYPE_MAPS !! version_or_default sv) as [cls|] eqn:Hr.
  2:{ rewrite (get_auth_unknown _ _ _ kw _ Hc Hr). apply case_unknown; assumption. }
  assert (Hb : (REQUIRES_REGION cls = true -> is_Some (_region_name self)) ->
               get_auth_case sn rn sv kw w (getAuth sn rn sv kw w)).
  { intros Hq.
    destruct (binds cls (build_kwargs (_credentials self) cls sn rn kw)) eqn:B.
    - rewrite (get_auth_build _ _ _ kw _ _ Hc Hr Hq B).
      apply case_built; assumption.
    - rewrite (get_auth_type_error _ _ _ kw _ _ Hc Hr Hq B).
      eapply case_type_error; eassumption. }
  destruct (REQUIRES_REGION cls) eqn:Hq; [destruct (_region_name self) eqn:Hn|].
  - apply Hb. eauto.
  - rewrite (get_auth_no_region _ _ _ kw _ _ Hc Hr Hq Hn).
    eapply case_no_region; eassumption.
  - apply Hb. discriminate.
Qed.

End CacheFacts.

(** ** One signer's lifetime *)

(** Cached instances have identities already handed out, and no two keys
    hold the same object. *)
Definition cache_wf (w : world) : Prop :=
  (forall k a, _cache w !! k = Some a -> auth_id a < next_id w)
  /\ (forall k1 k2 a1 a2,
        _cache w !! k1 = Some a1 -> _cache w !! k2 = Some a2 ->
        auth_id a1 = auth_id a2 -> k1 = k2).

(** From [w] to [w']: the cache only gains entries, identities are only
    handed out, and a well-formed cache stays so. *)
Definition grows (w w' : world) : Prop :=
  _cache w ⊆ _cache w'
  /\ next_id w <= next_id w'
  /\ (cache_wf w -> cache_wf w').

(** Every run of [m] makes the state grow. *)
Definition keeps {A : Type} (m : M A) : Prop :=
  forall w r w', m w = (r, w') -> grows w w'.

Lemma grows_refl w : grows w w.
Proof. split; [reflexivity | split; [lia | exact id]]. Qed.

Lemma grows_trans w1 w2 w3 : grows w1 w2 -> grows w2 w3 -> grows w1 w3.
Proof.
  intros (C1 & N1 & W1) (C2 & N2 & W2). split; [|split].
  - etrans; eassumption.
  - lia.
  - intros Hwf. apply W2, W1, Hwf.
Qed.

(** A state that differs from [w] in mappings and log only. *)
Lemma grows_same w w' :
  _cache w' = _cache w -> next_id w' = next_id w -> grows w w'.
Proof.
  intros C N. unfold grows, cache_wf. rewrite C, N.
  split; [reflexivity | split; [lia | exact id]].
Qed.

Lemma cache_wf_new ds : cache_wf (new_world ds).
Proof.
  split; cbn; intros *; rewrite lookup_empty; discriminate.
Qed.

Lemma keeps_mret {A : Type} (a : A) : keeps (mret a).
Proof. intros w r w' [= <- <-]. apply grows_refl. Qed.

Lemma keeps_raise {A : Type} (e : exn) : keeps (@raise A e).
Proof. intros w r w' [= <- <-]. apply grows_refl. Qed.

Lemma keeps_bind {A B : Type} (m : M A) (k : A -> M B) :
  keeps m -> (forall a, keeps (k a)) -> keeps (m ≫= k).
Proof.
  intros Hm Hk w r w'. unfold mbind, M_bind.
  destruct (m w) as [[a|e] w1] eqn:E; intros H.
  - eapply grows_trans; [eapply Hm, E | eapply Hk, H].
  - injection H as <- <-. eapply Hm, E.
Qed.

Lemma keeps_log e : keeps (log e).
Proof. intros w r w' [= <- <-]. apply grows_same; reflexivity. Qed.

Lemma keeps_call f request : keeps (call f request).
Proof.
  intros w r w'. unfold call. destruct (f request (dicts w)) as [request' ds].
  intros [= <- <-]. apply grows_same; reflexivity.
Qed.

Lemma keeps_new_dict : keeps new_dict.
Proof. intros w r w' [= <- <-]. apply grows_same; reflexivity. Qed.

Lemma grows_logged e w : grows w (logged e w).
Proof. apply grows_same; reflexivity. Qed.

Lemma grows_set_dicts ds w : grows w (set_dicts ds w).
Proof. apply grows_same; reflexivity. Qed.

Create HintDb keeps.
#[export] Hint Resolve keeps_mret keeps_raise keeps_log keeps_call keeps_new_dict : keeps.

Lemma grows_after_build key auth w :
  _cache w !! key = None -> auth_id auth = next_id w ->
  grows w {| _cache := <[key := auth]> (_cache w); next_id := S (next_id w);
             dicts := dicts w;
             trace := trace w ++ [EvCacheLookup key; EvConstruct auth] |}.
Proof.
  intros Hnone Hid. split; [|split]; cbn.
  - apply insert_subseteq, Hnone.
  - lia.
  - intros [Hlt Hinj]. split; cbn.
    + intros k a. rewrite lookup_insert. case_decide.
      * intros [= <-]. lia.
      * intros Hk. specialize (Hlt _ _ Hk). lia.
    + intros k1 k2 a1 a2. rewrite !lookup_insert.
      repeat case_decide; subst.
      * reflexivity.
      * intros [= <-] H2 E. specialize (Hlt _ _ H2). lia.
      * intros H1 [= <-] E. specialize (Hlt _ _ H1). lia.
      * apply Hinj.
Qed.

Section Lifetime.

Variable AUTH_TYPE_MAPS : gmap string auth_cls.
Variable request_dict : Type.
Variable create_request_object : request_dict -> Request.
Variable fix_s3_host : string -> option string -> ext.
Variable add_auth : auth_instance -> ext.
Variable prepare : ext.
Variable self : RequestSigner.

Local Abbreviation getAuth := (get_auth AUTH_TYPE_MAPS self).
Local Abbreviation signReq := (sign AUTH_TYPE_MAPS add_auth self).
Local Abbreviation generateUrl :=
  (generate_url AUTH_TYPE_MAPS request_dict create_request_object
     fix_s3_host add_auth prepare self).
Local Abbreviation buildPostFormArgs :=
  (build_post_form_args AUTH_TYPE_MAPS request_dict create_request_object
     fix_s3_host add_auth self).
Local Abbreviation keyOf := (key_of self).

Lemma keeps_get_auth sn rn sv kw : keeps (getAuth sn rn sv kw).
Proof.
  intros w r w' H.
  pose proof (get_auth_cases AUTH_TYPE_MAPS self sn rn sv kw w) as C.
  rewrite H in C. inversion C; subst; try apply grows_logged.
  apply grows_after_build; [assumption | reflexivity].
Qed.

Lemma keeps_call_add_auth auth request : keeps (call_add_auth add_auth auth request).
Proof. unfold call_add_auth. apply keeps_bind; auto with keeps. Qed.

Hint Resolve keeps_get_auth keeps_call_add_auth : keeps.

Ltac keeps_chain :=
  repeat first
    [ progress auto with keeps
    | apply keeps_bind; [| intros ?]
    | match goal with |- keeps (match ?x with _ => _ end) => destruct x end ].

Lemma keeps_generate_url rd expires_in rn : keeps (generateUrl rd expires_in rn).
Proof. unfold generate_url. keeps_chain. Qed.

Lemma keeps_build_post_form_args now rd fields conds expires_in rn :
  keeps (buildPostFormArgs now rd fields conds expires_in rn).
Proof. unfold build_post_form_args. keeps_chain. Qed.

Lemma sign_grows op request w r request' w' :
  signReq op request w = (r, request', w') -> grows w w'.
Proof.
  unfold sign. cbv [log].
  set (kw1 := Build_choose_kwargs _ _ _).
  set (n1 := (_ +:+ _ +:+ _ +:+ op) : string).
  set (sv := match emit_until_response _ _ _ with Some r0 => r0 | None => _ end).
  set (kw2 := Build_before_kwargs _ _ _).
  match goal with |- context [emit ?em ?n ?k ?rq ?ds] =>
    destruct (emit em n k rq ds) as [request1 ds1] end.
  set (w1 := set_dicts ds1 _).
  assert (G1 : grows w w1) by (apply grows_same; reflexivity).
  destruct sv as [v|].
  - destruct (getAuth _ _ _ _ w1) as [[signer|e] w2] eqn:E.
    + cbn [dicts].
      destruct (add_auth signer request1 (dicts w2)) as [request2 ds2].
      intros [= <- <- <-].
      eapply grows_trans; [exact G1|].
      eapply grows_trans; [eapply keeps_get_auth, E|].
      apply grows_same; reflexivity.
    + intros [= <- <- <-].
      eapply grows_trans; [exact G1 | eapply keeps_get_auth, E].
  - intros [= <- <- <-]. exact G1.
Qed.

(** One step of a signer's life: a call of one of its four methods, with
    any arguments and any outcome, or the caller changing mappings of its
    own between calls. *)
Inductive step (w w' : world) : Prop :=
| step_get_auth sn rn sv kw r :
    getAuth sn rn sv kw w = (r, w') -> step w w'
| step_sign op request r request' :
    signReq op request w = (r, request', w') -> step w w'
| step_generate_url rd expires_in rn r :
    generateUrl rd expires_in rn w = (r, w') -> step w w'
| step_build_post_form_args now rd fields conds expires_in rn r :
    buildPostFormArgs now rd fields conds expires_in rn w = (r, w') -> step w w'
| step_caller ds :
    w' = set_dicts ds w -> step w w'.

(** The states a signer can be in: those reached from a new signer. *)
Definition reachable (w : world) : Prop :=
  exists ds, rtc step (new_world ds) w.

Lemma step_grows w w' : step w w' -> grows w w'.
Proof.
  intros [sn rn sv kw r H | op request r request' H | rd e rn r H
         | now rd f c e rn r H | ds ->].
  - eapply keeps_get_auth, H.
  - eapply sign_grows, H.
  - eapply keeps_generate_url, H.
  - eapply keeps_build_post_form_args, H.
  - apply grows_set_dicts.
Qed.

Lemma steps_grows w w' : rtc step w w' -> grows w w'.
Proof.
  induction 1 as [w | w1 w2 w3 H12 _ IH].
  - apply grows_refl.
  - eapply grows_trans; [apply step_grows, H12 | exact IH].
Qed.

Lemma reachable_wf w : reachable w -> cache_wf w.
Proof.
  intros [ds H]. apply (steps_grows _ _ H), cache_wf_new.
Qed.

(** A call that returns found its result in the cache or built it. *)
Lemma get_auth_ok_inv sn rn sv kw w auth w' :
  getAuth sn rn sv kw w = (Ok auth, w') ->
  (_cache w !! keyOf sn rn sv = Some auth
   /\ w' = logged (EvCacheLookup (keyOf sn rn sv)) w)
  \/ (_cache w !! keyOf sn rn sv = None
      /\ exists cls, AUTH_TYPE_MAPS !! version_or_default self sv = Some cls
         /\ auth = built self cls sn rn kw w
         /\ w' = after_build (keyOf sn rn sv) auth w).
Proof.
  intros H.
  pose proof (get_auth_cases AUTH_TYPE_MAPS self sn rn sv kw w) as C.
  rewrite H in C. inversion C; subst.
  - left. auto.
  - right. split; [assumption|]. eauto.
Qed.

(** What a call returns sits in the cache under the call's key. *)
Lemma get_auth_ok_cached sn rn sv kw w auth w' :
  getAuth sn rn sv kw w = (Ok auth, w') ->
  _cache w' !! keyOf sn rn sv = Some auth.
Proof.
  intros H. apply get_auth_ok_inv in H as [[Hc ->] | [Hc (cls & _ & _ & ->)]].
  - exact Hc.
  - cbn. apply lookup_insert_eq.
Qed.

(** ... and stays there for the rest of the signer's life. *)
Lemma get_auth_ok_stays sn rn sv kw w auth w1 w2 :
  getAuth sn rn sv kw w = (Ok auth, w1) ->
  rtc step w1 w2 ->
  _cache w2 !! keyOf sn rn sv = Some auth.
Proof.
  intros H Hs. apply get_auth_ok_cached in H.
  destruct (steps_grows _ _ Hs) as (Hsub & _ & _).
  eapply lookup_weaken; eassumption.
Qed.

(** C4. Two calls of [get_auth] on one signer with the same signature
    version, region name and signing name return the same instance, the
    very object: when the first call returns [auth], the second call,
    whatever the signer did in between, returns [auth] again, from the
    cache, and leaves the cache and the count of built instances as they
    were. *)
Theorem get_auth_same_inputs_same_instance sn rn sv kw w auth w1 w2 :
  getAuth sn rn sv kw w = (Ok auth, w1) ->
  rtc step w1 w2 ->
  getAuth sn rn sv kw w2 = (Ok auth, logged (EvCacheLookup (keyOf sn rn sv)) w2).
Proof.
  intros H Hs. apply get_auth_hit. eapply get_auth_ok_stays; eassumption.
Qed.

(** C1, as amended. Two calls of [get_auth] in one signer's life whose
    formatted keys [version.region.signing_name] differ as strings return
    distinct instances. *)
Theorem get_auth_distinct_keys_distinct_instances
    sn1 rn1 sv1 kw1 sn2 rn2 sv2 kw2 w w1 w2 w3 auth1 auth2 :
  reachable w ->
  getAuth sn1 rn1 sv1 kw1 w = (Ok auth1, w1) ->
  rtc step w1 w2 ->
  getAuth sn2 rn2 sv2 kw2 w2 = (Ok auth2, w3) ->
  keyOf sn1 rn1 sv1 <> keyOf sn2 rn2 sv2 ->
  auth_id auth1 <> auth_id auth2.
Proof.
  intros Hr H1 Hs H2 Hne Hid.
  pose proof (get_auth_ok_stays _ _ _ _ _ _ _ _ H1 Hs) as Hc1.
  assert (Hwf : cache_wf w2).
  { apply (steps_grows _ _ Hs), (keeps_get_auth _ _ _ _ _ _ _ H1).
    apply reachable_wf, Hr. }
  destruct Hwf as [Hlt Hinj].
  apply get_auth_ok_inv in H2 as [[Hc2 _] | [_ (cls & _ & -> & _)]].
  - apply Hne. eapply Hinj; eassumption.
  - specialize (Hlt _ _ Hc1). cbn in Hid. lia.
Qed.

End Lifetime.

(** ** Keys and tuples *)

(** The text before the first dot, and the text after it. *)
Lemma split_head_app (a b : string) :
  has_char dot a = false -> split_head dot (a +:+ String dot b) = a.
Proof.
  induction a as [|c a IH]; intros H.
  - reflexivity.
  - change (String c a +:+ String dot b) with (String c (a +:+ String dot b)).
    cbn [split_head has_char] in *.
    destruct (Ascii.eqb c dot); [discriminate|]. f_equal. auto.
Qed.

Lemma app_dot_inj (a1 a2 b1 b2 : string) :
  has_char dot a1 = false -> has_char dot a2 = false ->
  a1 +:+ String dot b1 = a2 +:+ String dot b2 -> a1 = a2 /\ b1 = b2.
Proof.
  intros H1 H2 E. assert (a1 = a2) as ->.
  { rewrite <- (split_head_app a1 b1 H1), <- (split_head_app a2 b2 H2).
    f_equal. exact E. }
  split; [reflexivity|].
  clear H1 H2. induction a2 as [|c a IH].
  - injection E as E. exact E.
  - injection E as E. auto.
Qed.

(** On tuples whose version and region are free of dots, the key tells the
    tuple. *)
Lemma cache_key_inj (v1 v2 r1 r2 s1 s2 : string) :
  has_char dot v1 = false -> has_char dot v2 = false ->
  has_char dot r1 = false -> has_char dot r2 = false ->
  cache_key v1 (Some r1) s1 = cache_key v2 (Some r2) s2 ->
  (v1, r1, s1) = (v2, r2, s2).
Proof.
  unfold cache_key, format_opt. intros Hv1 Hv2 Hr1 Hr2 E.
  apply app_dot_inj in E as [-> E]; [|assumption..].
  apply app_dot_inj in E as [-> ->]; [|assumption..].
  reflexivity.
Qed.

(** ** The region check of [get_auth] *)

Section RegionCheck.

Variable AUTH_TYPE_MAPS : gmap string auth_cls.
Variable self : RequestSigner.

Local Abbreviation getAuth := (get_auth AUTH_TYPE_MAPS self).
Local Abbreviation keyOf := (key_of self).

(** C2, as amended. When a call of [get_auth] misses the cache and selects
    a class that requires a region, [NoRegionError] is raised if and only
    if the signer's own region, [self._region_name], is [None]; the
    [region_name] parameter is not consulted. When it is raised, nothing
    has been constructed: the cache and the count of built instances are
    untouched and only the cache lookup has been logged. *)
Theorem get_auth_no_region_iff sn rn sv kw w cls :
  _cache w !! keyOf sn rn sv = None ->
  AUTH_TYPE_MAPS !! version_or_default self sv = Some cls ->
  REQUIRES_REGION cls = true ->
  (fst (getAuth sn rn sv kw w) = Raise NoRegionError <-> _region_name self = None)
  /\ (_region_name self = None ->
      snd (getAuth sn rn sv kw w) = logged (EvCacheLookup (keyOf sn rn sv)) w).
Proof.
  intros Hc Hr Hq.
  pose proof (get_auth_cases AUTH_TYPE_MAPS self sn rn sv kw w) as C.
  destruct (getAuth sn rn sv kw w) as [r w'].
  inversion C as [a Ha | Hc' Hr' | cls' Hc' Hr' Hq' Hn | cls' Hc' Hr' Hq' Hb
                  | cls' Hc' Hr' Hq' Hb]; subst; cbn [fst snd]; try congruence.
  - split; [split|]; auto.
  - assert (cls' = cls) as -> by congruence.
    destruct (Hq' Hq) as [region Hregion]. rewrite Hregion.
    split; [split|]; discriminate.
  - assert (cls' = cls) as -> by congruence.
    destruct (Hq' Hq) as [region Hregion]. rewrite Hregion.
    split; [split|]; discriminate.
Qed.

End RegionCheck.

(** ** The pipeline of [sign] *)

(** The strategy lookup logs these events. *)
Definition lookup_event (e : event) : Prop :=
  match e with
  | EvCacheLookup _ | EvConstruct _ => True
  | _ => False
  end.

(** Only the strategy lookup and dispatch log these events. *)
Definition dispatch_event (e : event) : Prop :=
  match e with
  | EvCacheLookup _ | EvConstruct _ | EvAddAuth _ _ => True
  | _ => False
  end.

Section SignFacts.

Variable AUTH_TYPE_MAPS : gmap string auth_cls.
Variable add_auth : auth_instance -> ext.
Variable self : RequestSigner.

Local Abbreviation getAuth := (get_auth AUTH_TYPE_MAPS self).
Local Abbreviation signReq := (sign AUTH_TYPE_MAPS add_auth self).

Definition choose_name (operation_name : string) : string :=
  "choose-signer." +:+ _service_name self +:+ "." +:+ operation_name.

Definition before_name (operation_name : string) : string :=
  "before-sign." +:+ _service_name self +:+ "." +:+ operation_name.

Definition choose_kw : choose_kwargs :=
  {| ck_signing_name := _signing_name self;
     ck_region_name := _region_name self;
     ck_signature_version := _signature_version self |}.

(** The response of the choose-signer event. *)
Definition choose_response (operation_name : string) : option sigver :=
  emit_until_response (_event_emitter self) (choose_name operation_name) choose_kw.

(** The version [sign] goes on with once the response is in. *)
Definition effective_version (operation_name : string) : sigver :=
  match choose_response operation_name with
  | Some r => r
  | None => SvStr (_signature_version self)
  end.

Definition before_kw (operation_name : string) : before_kwargs :=
  {| bk_signing_name := _signing_name self;
     bk_region_name := _region_name self;
     bk_signature_version := effective_version operation_name |}.

(** The request and the mappings as the before-sign handlers leave them. *)
Definition after_before_sign (operation_name : string) (request : Request)
    (w : world) : Request * dstore :=
  emit (_event_emitter self) (before_name operation_name)
    (before_kw operation_name) request (dicts w).

(** The state when both events have been fired. *)
Definition after_events (operation_name : string) (request : Request)
    (w : world) : world :=
  {| _cache := _cache w; next_id := next_id w;
     dicts := snd (after_before_sign operation_name request w);
     trace := trace w ++ [EvChooseSigner (choose_name operation_name) choose_kw;
                          EvBeforeSign (before_name operation_name)
                            (before_kw operation_name)] |}.

(** The state when the strategy has been applied. *)
Definition after_add_auth (signer : auth_instance) (request : Request)
    (w : world) : world :=
  {| _cache := _cache w; next_id := next_id w;
     dicts := snd (add_auth signer request (dicts w));
     trace := trace w ++ [EvAddAuth signer request] |}.

(** [sign], step by step. *)
Lemma sign_eq op request w :
  signReq op request w =
  let request1 := fst (after_before_sign op request w) in
  let w1 := after_events op request w in
  match effective_version op with
  | UNSIGNED => (Ok tt, request1, w1)
  | SvStr v =>
      match getAuth (_signing_name self) (_region_name self) (Some v) ∅ w1 with
      | (Raise e, w2) => (Raise e, request1, w2)
      | (Ok signer, w2) =>
          (Ok tt, fst (add_auth signer request1 (dicts w2)),
           after_add_auth signer request1 w2)
      end
  end.
Proof.
  unfold sign, after_events, after_before_sign, after_add_auth.
  unfold effective_version, choose_response, before_kw, effective_version,
    choose_response, choose_kw, choose_name, before_name.
  cbv [log]. cbn [dicts _cache next_id trace].
  match goal with |- context [emit ?em ?n ?k ?rq ?ds] =>
    destruct (emit em n k rq ds) as [request1 ds1] end.
  cbn [fst snd]. unfold set_dicts. cbn [dicts _cache next_id trace].
  rewrite <- app_assoc. cbn [app].
  match goal with |- context [match ?x with Some _ => _ | None => _ end] =>
    destruct x as [[v|]|] end.
  all: try reflexivity.
  all: match goal with |- context [get_auth ?a ?b ?c ?d ?e ?f ?g] =>
         destruct (get_auth a b c d e f g) as [[signer|e0] w2] end.
  all: try reflexivity.
  all: cbn [dicts _cache next_id trace];
       destruct (add_auth signer request1 (dicts w2)); reflexivity.
Qed.

(** [get_auth] logs lookup and construction events only. *)
Lemma get_auth_trace sn rn sv kw w r w' :
  getAuth sn rn sv kw w = (r, w') ->
  exists evs, trace w' = trace w ++ evs /\ Forall dispatch_event evs.
Proof.
  intros H.
  pose proof (get_auth_cases AUTH_TYPE_MAPS self sn rn sv kw w) as C.
  rewrite H in C.
  inversion C; subst; (eexists; split; [reflexivity|]); repeat constructor.
Qed.

(** An unregistered version on a cache miss: [sign] raises after both
    events, with the request as the before-sign handlers left it. *)
Lemma sign_miss_unknown op request w v :
  effective_version op = SvStr v ->
  AUTH_TYPE_MAPS !! v = None ->
  _cache w !! cache_key v (_region_name self) (_signing_name self) = None ->
  signReq op request w
  = (Raise (UnknownSignatureVersionError v),
     fst (after_before_sign op request w),
     logged (EvCacheLookup (cache_key v (_region_name self) (_signing_name self)))
       (after_events op request w)).
Proof.
  intros Hv Hr Hc. rewrite sign_eq. cbv zeta. rewrite Hv.
  rewrite (get_auth_unknown AUTH_TYPE_MAPS self (_signing_name self)
             (_region_name self) (Some v) ∅ (after_events op request w) Hc Hr).
  reflexivity.
Qed.

(** The strategy lookup logs these events only, and leaves the mappings as
    they are. *)
Lemma get_auth_lookup_events sn rn sv kw w r w' :
  getAuth sn rn sv kw w = (r, w') ->
  exists evs,
    trace w' = trace w ++ evs
    /\ Forall lookup_event evs
    /\ dicts w' = dicts w.
Proof.
  intros H.
  pose proof (get_auth_cases AUTH_TYPE_MAPS self sn rn sv kw w) as C.
  rewrite H in C.
  inversion C; subst; (eexists; split; [reflexivity|]);
    (split; [repeat constructor | reflexivity]).
Qed.

Lemma lookup_event_dispatch (evs : list event) :
  Forall lookup_event evs -> Forall dispatch_event evs.
Proof.
  intros H. eapply Forall_impl; [exact H|]. intros [] He; cbn in *; tauto.
Qed.

Lemma lookup_event_not_add_auth (evs : list event) a rq :
  Forall lookup_event evs -> ~ In (EvAddAuth a rq) evs.
Proof.
  intros H Hin. rewrite Forall_forall in H.
  apply (H (EvAddAuth a rq)). apply list_elem_of_In, Hin.
Qed.

(** C7. In every call of [sign] the before-sign handlers are run, on the
    caller's request and with the version already resolved from the
    choose-signer response (the response, or the configured default when
    there is none): also when that version is the unsigned sentinel and
    nothing is signed, and also when the lookup raises, the request that
    comes out is the one the handlers made. They run after the
    choose-signer event and before the strategy lookup and dispatch: the
    log has the choose-signer event, then the before-sign event, then
    lookup and dispatch events only; [get_auth] is entered in the state the
    handlers left, and the strategy is applied to the request and the
    mappings as the handlers left them. *)
Theorem sign_before_sign_always_in_order op request w :
  let kw := {| bk_signing_name := _signing_name self;
               bk_region_name := _region_name self;
               bk_signature_version :=
                 match choose_response op with
                 | Some r => r
                 | None => SvStr (_signature_version self)
                 end |} in
  let handled := emit (_event_emitter self) (before_name op) kw request (dicts w) in
  let w1 := {| _cache := _cache w; next_id := next_id w; dicts := snd handled;
               trace := trace w ++ [EvChooseSigner (choose_name op) choose_kw;
                                    EvBeforeSign (before_name op) kw] |} in
  exists rest,
    trace (snd (signReq op request w))
    = trace w
      ++ EvChooseSigner (choose_name op) choose_kw
      :: EvBeforeSign (before_name op) kw
      :: rest
    /\ Forall dispatch_event rest
    /\ (forall a rq, In (EvAddAuth a rq) rest -> rq = fst handled)
    /\ match effective_version op with
       | UNSIGNED =>
           rest = [] /\ signReq op request w = (Ok tt, fst handled, w1)
       | SvStr v =>
           exists r w2 evs,
             getAuth (_signing_name self) (_region_name self) (Some v) ∅ w1 = (r, w2)
             /\ trace w2 = trace w1 ++ evs
             /\ Forall lookup_event evs
             /\ match r with
                | Raise e =>
                    rest = evs
                    /\ signReq op request w = (Raise e, fst handled, w2)
                | Ok signer =>
                    rest = evs ++ [EvAddAuth signer (fst handled)]
                    /\ signReq op request w
                       = (Ok tt,
                          fst (add_auth signer (fst handled) (snd handled)),
                          {| _cache := _cache w2; next_id := next_id w2;
                             dicts := snd (add_auth signer (fst handled) (snd handled));
                             trace := trace w2 ++ [EvAddAuth signer (fst handled)] |})
                end
       end.
Proof.
  intros kw handled w1.
  pose proof (sign_eq op request w) as E. cbv zeta in E.
  change (after_before_sign op request w) with handled in E.
  change (after_events op request w) with w1 in E.
  destruct (effective_version op) as [v|] eqn:Hv.
  - destruct (getAuth (_signing_name self) (_region_name self) (Some v) ∅ w1)
      as [[signer|e] w2] eqn:G;
      destruct (get_auth_lookup_events _ _ _ _ _ _ _ G) as (evs & Ht & Hl & Hd);
      pose proof Ht as Ht'; unfold w1 in Ht', Hd; cbn [trace dicts] in Ht', Hd.
    + unfold after_add_auth in E. rewrite Hd in E.
      exists (evs ++ [EvAddAuth signer (fst handled)]).
      split; [|split; [|split]].
      * rewrite E. cbn [snd trace]. rewrite Ht', <- !app_assoc. reflexivity.
      * apply Forall_app. split; [apply lookup_event_dispatch, Hl|].
        repeat constructor.
      * intros a rq Hin. apply in_app_or in Hin as [Hin | [[= _ <-] | []]].
        -- destruct (lookup_event_not_add_auth _ _ _ Hl Hin).
        -- reflexivity.
      * exists (Ok signer), w2, evs.
        split; [reflexivity|]. split; [exact Ht|]. split; [exact Hl|].
        split; [reflexivity | exact E].
    + exists evs. split; [|split; [|split]].
      * rewrite E. cbn [snd]. rewrite Ht', <- !app_assoc. reflexivity.
      * apply lookup_event_dispatch, Hl.
      * intros a rq Hin. destruct (lookup_event_not_add_auth _ _ _ Hl Hin).
      * exists (Raise e), w2, evs.
        split; [reflexivity|]. split; [exact Ht|]. split; [exact Hl|].
        split; [reflexivity | exact E].
  - exists []. split; [|split; [|split]].
    + rewrite E. reflexivity.
    + constructor.
    + intros a rq [].
    + auto.
Qed.

(** C6, as amended. When the effective version of a call of [sign] is a
    string with no registered class and its key is not in the cache,
    [UnknownSignatureVersionError] is raised; the request is then exactly
    what the before-sign handlers made of it, and the log shows the two
    events and the cache lookup only: no instance was built and no
    strategy applied. *)
Theorem sign_unknown_version_raises op request w v :
  effective_version op = SvStr v ->
  AUTH_TYPE_MAPS !! v = None ->
  _cache w !! cache_key v (_region_name self) (_signing_name self) = None ->
  signReq op request w
  = (Raise (UnknownSignatureVersionError v),
     fst (emit (_event_emitter self) (before_name op) (before_kw op)
            request (dicts w)),
     {| _cache := _cache w; next_id := next_id w;
        dicts := snd (emit (_event_emitter self) (before_name op) (before_kw op)
                        request (dicts w));
        trace := trace w
                 ++ [EvChooseSigner (choose_name op) choose_kw;
                     EvBeforeSign (before_name op) (before_kw op);
                     EvCacheLookup (cache_key v (_region_name self)
                                      (_signing_name self))] |}).
Proof.
  intros Hv Hr Hc. rewrite (sign_miss_unknown _ _ _ _ Hv Hr Hc).
  unfold logged, after_events, after_before_sign. cbn [_cache next_id dicts trace].
  rewrite <- app_assoc. reflexivity.
Qed.

End SignFacts.

(** ** Running the monad *)

Lemma bind_run {A B : Type} (m : M A) (k : A -> M B) (w : world) :
  (m ≫= k) w = match m w with
               | (Ok a, w') => k a w'
               | (Raise e, w') => (Raise e, w')
               end.
Proof. reflexivity. Qed.

Lemma log_run (e : event) (w : world) : log e w = (Ok tt, logged e w).
Proof. reflexivity. Qed.

Lemma call_run (f : ext) (request : Request) (w : world) :
  call f request w
  = (Ok (fst (f request (dicts w))), set_dicts (snd (f request (dicts w))) w).
Proof. unfold call. destruct (f request (dicts w)); reflexivity. Qed.

Lemma mret_run {A : Type} (a : A) (w : world) : (mret a : M A) w = (Ok a, w).
Proof. reflexivity. Qed.

Ltac run_monad :=
  repeat (rewrite ?bind_run, ?log_run, ?call_run, ?mret_run; cbn beta iota).

(** ** The two presign entry points *)

Lemma append_all_from (conds acc : list condition) :
  fold_left (fun acc condition => acc ++ [condition]) conds acc = acc ++ conds.
Proof.
  revert acc. induction conds as [|c conds IH]; intros acc; cbn [fold_left].
  - rewrite app_nil_r. reflexivity.
  - rewrite IH, <- app_assoc. reflexivity.
Qed.

(** The loop copies the caller's conditions, in order. *)
Lemma append_all_id (conds : list condition) : append_all conds = conds.
Proof. unfold append_all. apply append_all_from. Qed.

(** The extra keyword arguments [generate_url] passes on. *)
Definition expires_kwargs (expires_in : option Z) : gmap string kwval :=
  match expires_in with
  | Some e => {["expires" := KInt e]}
  | None => ∅
  end.

Section Presign.

Variable AUTH_TYPE_MAPS : gmap string auth_cls.
Variable request_dict : Type.
Variable create_request_object : request_dict -> Request.
Variable fix_s3_host : string -> option string -> ext.
Variable add_auth : auth_instance -> ext.
Variable prepare : ext.
Variable self : RequestSigner.

Local Abbreviation getAuth := (get_auth AUTH_TYPE_MAPS self).
Local Abbreviation generateUrl :=
  (generate_url AUTH_TYPE_MAPS request_dict create_request_object
     fix_s3_host add_auth prepare self).
Local Abbreviation buildPostFormArgs :=
  (build_post_form_args AUTH_TYPE_MAPS request_dict create_request_object
     fix_s3_host add_auth self).
Local Abbreviation lifeStep :=
  (step AUTH_TYPE_MAPS request_dict create_request_object
     fix_s3_host add_auth prepare self).

(** [if region_name is None: region_name = self._region_name]. *)
Definition region_or_default (region_name : option string) : option string :=
  match region_name with
  | None => _region_name self
  | Some r => Some r
  end.

Definition query_version : string :=
  derive_variant (_signature_version self) "-query".

Definition post_version : string :=
  derive_variant (_signature_version self) "-presign-post".

(** The request [generate_url] hands to the strategy, with the mappings:
    the new request, host already fixed. *)
Definition url_request (rd : request_dict) (rn : option string) (w : world)
    : Request * dstore :=
  fix_s3_host (split_head "-" query_version) (region_or_default rn)
    (create_request_object rd) (dicts w).

(** [generate_url], step by step. *)
Lemma generate_url_eq rd expires_in rn w :
  generateUrl rd expires_in rn w =
  match getAuth (_signing_name self) (region_or_default rn)
          (Some query_version) (expires_kwargs expires_in) w with
  | (Raise e, w1) => (Raise e, w1)
  | (Ok auth, w1) =>
      let fixed := url_request rd rn w1 in
      let signed := add_auth auth (fst fixed) (snd fixed) in
      let prepared := prepare (fst signed) (snd signed) in
      (Ok (url (fst prepared)),
       {| _cache := _cache w1; next_id := next_id w1;
          dicts := snd prepared;
          trace := trace w1
                   ++ [EvCreateRequest;
                       EvFixS3Host (split_head "-" query_version)
                         (region_or_default rn);
                       EvAddAuth auth (fst fixed);
                       EvPrepare] |})
  end.
Proof.
  unfold generate_url, url_request, query_version, region_or_default, expires_kwargs.
  rewrite bind_run.
  match goal with |- context [get_auth ?a ?b ?c ?d ?e ?f ?g] =>
    destruct (get_auth a b c d e f g) as [[auth|e0] w1] end; [|reflexivity].
  unfold call_add_auth. run_monad.
  unfold set_dicts, logged. cbn [fst snd dicts _cache next_id trace].
  rewrite <- !app_assoc. reflexivity.
Qed.

(** The state once [fields] names a mapping: a new empty one when the
    caller gave none. *)
Definition with_fields (fields : option nat) (w : world) : nat * world :=
  match fields with
  | Some f => (f, w)
  | None => (length (dicts w),
             {| _cache := _cache w; next_id := next_id w;
                dicts := dicts w ++ [∅]; trace := trace w |})
  end.

(** The request [build_post_form_args] hands to the strategy. *)
Definition post_request (rd : request_dict) (fields : nat) (policy : Policy)
    : Request :=
  set_context "s3-presign-post-policy" (CtxPolicy policy)
    (set_context "s3-presign-post-fields" (CtxFields fields)
       (create_request_object rd)).

(** [build_post_form_args], step by step. *)
Lemma build_post_form_args_eq now rd fields conds expires_in rn w :
  buildPostFormArgs now rd fields conds expires_in rn w =
  let '(f, w0) := with_fields fields w in
  match datetime_add_seconds now expires_in with
  | None => (Raise OverflowError, w0)
  | Some expire_date =>
      let policy :=
        {| expiration := strftime ISO8601 expire_date;
           conditions := append_all (match conds with
                                     | None => []
                                     | Some c => c
                                     end) |} in
      match getAuth (_signing_name self) (region_or_default rn)
              (Some post_version) ∅ w0 with
      | (Raise e, w1) => (Raise e, w1)
      | (Ok auth, w1) =>
          let request := post_request rd f policy in
          let signed := add_auth auth request (dicts w1) in
          let fixed := fix_s3_host (split_head "-" post_version)
                         (region_or_default rn) (fst signed) (snd signed) in
          (Ok (url (fst fixed), f),
           {| _cache := _cache w1; next_id := next_id w1;
              dicts := snd fixed;
              trace := trace w1
                       ++ [EvCreateRequest;
                           EvAddAuth auth request;
                           EvFixS3Host (split_head "-" post_version)
                             (region_or_default rn)] |})
      end
  end.
Proof.
  unfold build_post_form_args, post_version, region_or_default, post_request,
    with_fields.
  rewrite bind_run.
  destruct fields as [f|]; cbv [new_dict]; run_monad.
  all: destruct (datetime_add_seconds now expires_in) as [d|]; [|reflexivity].
  all: run_monad.
  all: match goal with |- context [get_auth ?a ?b ?c ?d ?e ?f ?g] =>
         destruct (get_auth a b c d e f g) as [[auth|e0] w1] end; [|reflexivity].
  all: unfold call_add_auth; run_monad.
  all: unfold set_dicts, logged; cbn [fst snd dicts _cache next_id trace].
  all: rewrite <- !app_assoc; reflexivity.
Qed.

Lemma datetime_add_seconds_some now seconds d :
  datetime_add_seconds now seconds = Some d ->
  dt_us d = (dt_us now + seconds * 1000000)%Z.
Proof.
  unfold datetime_add_seconds, us_per_second.
  destruct (datetime_in_range _); [|discriminate]. intros [= <-]. reflexivity.
Qed.

Lemma dispatch_not_prepare (evs : list event) :
  Forall dispatch_event evs -> Forall (fun e => e <> EvPrepare) evs.
Proof.
  intros H. eapply Forall_impl; [exact H|]. intros e He ->. exact He.
Qed.

(** C8. When [build_post_form_args] returns, the strategy was handed a
    request whose context holds, under [s3-presign-post-policy], a policy
    whose expiration is the clock reading plus [expires_in] seconds,
    printed with the ISO-8601 pattern, and whose conditions are the
    caller's, unchanged and in order. *)
Theorem build_post_form_args_policy now rd fields conds expires_in rn w u f w' :
  buildPostFormArgs now rd fields conds expires_in rn w = (Ok (u, f), w') ->
  exists expire_date auth request evs,
    datetime_add_seconds now expires_in = Some expire_date
    /\ dt_us expire_date = (dt_us now + expires_in * 1000000)%Z
    /\ trace w' = trace w ++ evs
                  ++ [EvAddAuth auth request;
                      EvFixS3Host (split_head "-" post_version)
                        (region_or_default rn)]
    /\ context request !! "s3-presign-post-policy"
       = Some (CtxPolicy
                 {| expiration := strftime ISO8601 expire_date;
                    conditions := match conds with
                                  | None => []
                                  | Some c => c
                                  end |}).
Proof.
  rewrite build_post_form_args_eq.
  destruct (with_fields fields w) as [f0 w0] eqn:Hf.
  assert (Ht0 : trace w0 = trace w).
  { unfold with_fields in Hf. destruct fields; injection Hf as <- <-; reflexivity. }
  destruct (datetime_add_seconds now expires_in) as [d|] eqn:Hd; [|discriminate].
  cbv zeta.
  destruct (getAuth _ _ _ _ w0) as [[auth|e] w1] eqn:E; [|discriminate].
  intros [= <- <- <-].
  apply get_auth_trace in E as (evs & Ht & _).
  exists d, auth. eexists. exists (evs ++ [EvCreateRequest]).
  split; [reflexivity|]. split; [apply datetime_add_seconds_some, Hd|].
  split.
  - cbn [trace]. rewrite Ht, Ht0, <- !app_assoc. reflexivity.
  - unfold post_request, set_context. cbn [context].
    rewrite lookup_insert_eq, append_all_id. reflexivity.
Qed.

(** C9. [generate_url] calls [prepare] on the request, after the strategy
    was applied and as the last thing it does, and returns the URL of the
    request after that call; [build_post_form_args] never calls [prepare]:
    it returns the URL of the request as the strategy and the host fix
    left it. *)
Theorem presign_url_asymmetry
    rd expires_in rn w u w' now rd' fields conds expires_in' rn' wp up fp wp' :
  generateUrl rd expires_in rn w = (Ok u, w') ->
  buildPostFormArgs now rd' fields conds expires_in' rn' wp = (Ok (up, fp), wp') ->
  (exists auth request ds evs,
      trace w' = trace w ++ evs ++ [EvAddAuth auth request; EvPrepare]
      /\ Forall (fun e => e <> EvPrepare) evs
      /\ u = url (fst (prepare (fst (add_auth auth request ds))
                         (snd (add_auth auth request ds)))))
  /\ (exists auth request ds evs,
        trace wp' = trace wp ++ evs
                    ++ [EvAddAuth auth request;
                        EvFixS3Host (split_head "-" post_version)
                          (region_or_default rn')]
        /\ Forall (fun e => e <> EvPrepare) evs
        /\ up = url (fst (fix_s3_host (split_head "-" post_version)
                            (region_or_default rn')
                            (fst (add_auth auth request ds))
                            (snd (add_auth auth request ds))))).
Proof.
  intros Hu Hp. split.
  - rewrite generate_url_eq in Hu.
    destruct (getAuth _ _ _ _ w) as [[auth|e] w1] eqn:E; [|discriminate].
    cbv zeta in Hu. injection Hu as <- <-.
    apply get_auth_trace in E as (evs & Ht & Hdisp).
    exists auth. do 2 eexists.
    exists (evs ++ [EvCreateRequest;
                    EvFixS3Host (split_head "-" query_version)
                      (region_or_default rn)]).
    split; [|split; [|reflexivity]].
    + cbn [trace]. rewrite Ht, <- !app_assoc. reflexivity.
    + apply Forall_app. split; [apply dispatch_not_prepare, Hdisp|].
      repeat constructor; discriminate.
  - rewrite build_post_form_args_eq in Hp.
    destruct (with_fields fields wp) as [f0 w0] eqn:Hf.
    assert (Ht0 : trace w0 = trace wp).
    { unfold with_fields in Hf. destruct fields; injection Hf as <- <-; reflexivity. }
    destruct (datetime_add_seconds now expires_in') as [d|]; [|discriminate].
    cbv zeta in Hp.
    destruct (getAuth _ _ _ _ w0) as [[auth|e] w1] eqn:E; [|discriminate].
    injection Hp as <- <- <-.
    apply get_auth_trace in E as (evs & Ht & Hdisp).
    exists auth. do 2 eexists. exists (evs ++ [EvCreateRequest]).
    split; [|split; [|reflexivity]].
    + cbn [trace]. rewrite Ht, Ht0, <- !app_assoc. reflexivity.
    + apply Forall_app. split; [apply dispatch_not_prepare, Hdisp|].
      repeat constructor; discriminate.
Qed.

(** The key [generate_url] looks under. *)
Definition query_key (rn : option string) : string :=
  cache_key query_version (region_or_default rn) (_signing_name self).

Lemma expires_of_built cls sn rn expires_in w :
  auth_kwargs (built self cls sn rn (expires_kwargs expires_in) w) !! "expires"
  = KInt <$> expires_in.
Proof.
  unfold built, build_kwargs. cbn [auth_kwargs].
  destruct (REQUIRES_REGION cls).
  - rewrite !lookup_insert_ne by discriminate.
    destruct expires_in; cbn; [apply lookup_singleton_eq | apply lookup_empty].
  - rewrite !lookup_insert_ne by discriminate.
    destruct expires_in; cbn; [apply lookup_singleton_eq | apply lookup_empty].
Qed.

(** C10. The extra construction arguments are no part of the cache key.
    After a call of [generate_url] that returned, every later call on the
    same signer that resolves to the same region finds the instance of the
    first call in the cache and applies it, and its own [expires_in]
    appears nowhere in what it does or returns. If the first call built
    the instance, the instance carries the first call's [expires_in]. *)
Theorem generate_url_expires_not_in_key rd1 expires1 rn1 w u1 w1 w2 rd2 rn2 :
  generateUrl rd1 expires1 rn1 w = (Ok u1, w1) ->
  rtc lifeStep w1 w2 ->
  region_or_default rn2 = region_or_default rn1 ->
  exists auth,
    _cache w2 !! query_key rn1 = Some auth
    /\ (_cache w !! query_key rn1 = None ->
        auth_kwargs auth !! "expires" = KInt <$> expires1)
    /\ forall expires2,
         generateUrl rd2 expires2 rn2 w2
         = let fixed := url_request rd2 rn2 w2 in
           let signed := add_auth auth (fst fixed) (snd fixed) in
           let prepared := prepare (fst signed) (snd signed) in
           (Ok (url (fst prepared)),
            {| _cache := _cache w2; next_id := next_id w2;
               dicts := snd prepared;
               trace := trace w2
                        ++ [EvCacheLookup (query_key rn1);
                            EvCreateRequest;
                            EvFixS3Host (split_head "-" query_version)
                              (region_or_default rn2);
                            EvAddAuth auth (fst fixed);
                            EvPrepare] |}).
Proof.
  intros H1 Hs Hrn. rewrite generate_url_eq in H1.
  destruct (getAuth _ _ _ _ w) as [[auth|e] w0] eqn:E; [|discriminate].
  cbv zeta in H1. injection H1 as _ <-.
  exists auth.
  assert (Hc0 : _cache w0 !! query_key rn1 = Some auth).
  { exact (get_auth_ok_cached AUTH_TYPE_MAPS self _ _ _ _ _ _ _ E). }
  assert (Hc2 : _cache w2 !! query_key rn1 = Some auth).
  { destruct (steps_grows _ _ _ _ _ _ _ _ _ Hs) as (Hsub & _ & _).
    eapply lookup_weaken; [|exact Hsub]. exact Hc0. }
  split; [exact Hc2|]. split.
  - intros Hnone.
    apply get_auth_ok_inv in E as [[Hhit _] | [_ (cls & _ & -> & _)]].
    + unfold query_key in Hnone. unfold key_of, version_or_default in Hhit.
      congruence.
    + apply expires_of_built.
  - intros expires2. rewrite generate_url_eq, Hrn.
    rewrite (get_auth_hit AUTH_TYPE_MAPS self (_signing_name self)
               (region_or_default rn1) (Some query_version)
               (expires_kwargs expires2) w2 auth Hc2).
    cbv zeta. unfold url_request. rewrite Hrn.
    unfold logged. cbn [_cache next_id dicts trace].
    rewrite <- !app_assoc. reflexivity.
Qed.

End Presign.

(** ** Signers configured with a variant *)

(** The signer [self] with another configured signature version. *)
Definition with_version (v : string) (self : RequestSigner) : RequestSigner :=
  {| _service_name := _service_name self; _region_name := _region_name self;
     _signing_name := _signing_name self; _signature_version := v;
     _credentials := _credentials self; _event_emitter := _event_emitter self |}.

Lemma get_auth_given_version AUTH_TYPE_MAPS self v' sn rn v kw :
  get_auth AUTH_TYPE_MAPS (with_version v' self) sn rn (Some v) kw
  = get_auth AUTH_TYPE_MAPS self sn rn (Some v) kw.
Proof. reflexivity. Qed.

(** A signer configured with [v4-query] presigns URLs as one configured with
    [v4] does: the suffix is not appended a second time. *)
Lemma generate_url_variant_configured AUTH_TYPE_MAPS request_dict
    create_request_object fix_s3_host add_auth prepare self rd expires_in rn w :
  generate_url AUTH_TYPE_MAPS request_dict create_request_object fix_s3_host
    add_auth prepare (with_version (query_version self) self) rd expires_in rn w
  = generate_url AUTH_TYPE_MAPS request_dict create_request_object fix_s3_host
      add_auth prepare self rd expires_in rn w.
Proof.
  rewrite !generate_url_eq. unfold url_request, query_version.
  cbn [with_version _signature_version _signing_name].
  rewrite derive_variant_idem, get_auth_given_version. reflexivity.
Qed.

(** Likewise for [-presign-post]. *)
Lemma build_post_form_args_variant_configured AUTH_TYPE_MAPS request_dict
    create_request_object fix_s3_host add_auth self now rd fields conds
    expires_in rn w :
  build_post_form_args AUTH_TYPE_MAPS request_dict create_request_object
    fix_s3_host add_auth (with_version (post_version self) self)
    now rd fields conds expires_in rn w
  = build_post_form_args AUTH_TYPE_MAPS request_dict create_request_object
      fix_s3_host add_auth self now rd fields conds expires_in rn w.
Proof.
  rewrite !build_post_form_args_eq. unfold post_version.
  cbn [with_version _signature_version _signing_name].
  rewrite derive_variant_idem, get_auth_given_version. reflexivity.
Qed.

(** ** The properties on sample runs *)

Definition demo_signer : RequestSigner :=
  sample_signer (Some "us-east-1") "s3" "v4" no_handlers.

Definition demo_get_auth := get_auth sample_registry demo_signer.

Definition demo_auth_v4 : auth_instance :=
  {| auth_id := 0; auth_class := SigV4Auth;
     auth_kwargs := build_kwargs sample_credentials SigV4Auth "s3"
                      (Some "us-east-1") ∅ |}.

(** The state after a first [get_auth('s3', 'us-east-1')] on a new signer. *)
Definition demo_world1 : world :=
  snd (demo_get_auth "s3" (Some "us-east-1") None ∅ (new_world [])).

Example demo_first_call :
  demo_get_auth "s3" (Some "us-east-1") None ∅ (new_world [])
  = (Ok demo_auth_v4, demo_world1).
Proof. vm_compute. reflexivity. Qed.

Lemma get_auth_same_inputs_same_instance_witness :
  demo_get_auth "s3" (Some "us-east-1") None ∅ (new_world [])
  = (Ok demo_auth_v4, demo_world1)
  /\ demo_get_auth "s3" (Some "us-east-1") None ∅ demo_world1
     = (Ok demo_auth_v4, logged (EvCacheLookup "v4.us-east-1.s3") demo_world1).
Proof.
  split; [vm_compute; reflexivity|].
  apply (get_auth_same_inputs_same_instance sample_registry string sample_create
           sample_fix_s3_host sample_add_auth sample_prepare demo_signer
           "s3" (Some "us-east-1") None ∅ (new_world []) demo_auth_v4
           demo_world1 demo_world1).
  - vm_compute; reflexivity.
  - apply rtc_refl.
Defined.

Definition demo_auth_eu : auth_instance :=
  {| auth_id := 1; auth_class := SigV4Auth;
     auth_kwargs := build_kwargs sample_credentials SigV4Auth "s3"
                      (Some "eu-west-1") ∅ |}.

Definition demo_world2 : world :=
  snd (demo_get_auth "s3" (Some "eu-west-1") None ∅ demo_world1).

Lemma get_auth_distinct_keys_distinct_instances_witness :
  demo_get_auth "s3" (Some "us-east-1") None ∅ (new_world [])
  = (Ok demo_auth_v4, demo_world1)
  /\ demo_get_auth "s3" (Some "eu-west-1") None ∅ demo_world1
     = (Ok demo_auth_eu, demo_world2)
  /\ key_of demo_signer "s3" (Some "us-east-1") None
     <> key_of demo_signer "s3" (Some "eu-west-1") None
  /\ auth_id demo_auth_v4 <> auth_id demo_auth_eu.
Proof.
  split; [vm_compute; reflexivity|].
  split; [vm_compute; reflexivity|].
  split; [vm_compute; discriminate|].
  apply (get_auth_distinct_keys_distinct_instances sample_registry string
           sample_create sample_fix_s3_host sample_add_auth sample_prepare
           demo_signer
           "s3" (Some "us-east-1") None ∅ "s3" (Some "eu-west-1") None ∅
           (new_world []) demo_world1 demo_world1 demo_world2
           demo_auth_v4 demo_auth_eu).
  - exists []. apply rtc_refl.
  - vm_compute; reflexivity.
  - apply rtc_refl.
  - vm_compute; reflexivity.
  - vm_compute; discriminate.
Defined.

(** The tuples [('v4', 'us.east', 's3')] and [('v4', 'us', 'east.s3')] differ
    and format to one key, [v4.us.east.s3]: the second call returns the
    instance built by the first. *)
Definition dotted_signer : RequestSigner :=
  sample_signer (Some "east") "s3" "v4" no_handlers.

Definition dotted_world1 : world :=
  snd (get_auth sample_registry dotted_signer "s3" (Some "us.east") (Some "v4") ∅
         (new_world [])).

Lemma get_auth_distinct_tuples_one_instance :
  ("v4", Some "us.east", "s3") <> ("v4", Some "us", "east.s3")
  /\ exists auth,
       fst (get_auth sample_registry dotted_signer "s3" (Some "us.east") (Some "v4") ∅
              (new_world [])) = Ok auth
       /\ fst (get_auth sample_registry dotted_signer "east.s3" (Some "us") (Some "v4") ∅
                 dotted_world1) = Ok auth.
Proof.
  split; [discriminate|].
  exists {| auth_id := 0; auth_class := SigV4Auth;
            auth_kwargs := build_kwargs sample_credentials SigV4Auth "s3"
                             (Some "us.east") ∅ |}.
  split; vm_compute; reflexivity.
Qed.

(** A signer without a region of its own: the region given as parameter does
    not help. *)
Definition regionless_signer : RequestSigner :=
  sample_signer None "s3" "v4" no_handlers.

Lemma get_auth_region_parameter_not_consulted :
  sample_registry !! "v4" = Some SigV4Auth
  /\ REQUIRES_REGION SigV4Auth = true
  /\ fst (get_auth sample_registry regionless_signer "s3" (Some "us-east-1")
            (Some "v4") ∅ (new_world []))
     = Raise NoRegionError.
Proof. repeat split; vm_compute; reflexivity. Qed.

Lemma get_auth_no_region_iff_witness :
  (fst (get_auth sample_registry regionless_signer "s3" (Some "us-east-1")
          (Some "v4") ∅ (new_world [])) = Raise NoRegionError
   <-> _region_name regionless_signer = None)
  /\ (_region_name regionless_signer = None ->
      snd (get_auth sample_registry regionless_signer "s3" (Some "us-east-1")
             (Some "v4") ∅ (new_world []))
      = logged (EvCacheLookup "v4.us-east-1.s3") (new_world [])).
Proof.
  apply (get_auth_no_region_iff sample_registry regionless_signer
           "s3" (Some "us-east-1") (Some "v4") ∅ (new_world []) SigV4Auth).
  - vm_compute; reflexivity.
  - vm_compute; reflexivity.
  - reflexivity.
Defined.

(** A choose-signer handler that answers the empty string. *)
Definition blank_signer : RequestSigner :=
  sample_signer (Some "us-east-1") "s3" "v4" (answering (Some (SvStr ""))).

(** ... one that answers the sentinel, and one that answers nothing. *)
Definition unsigned_signer : RequestSigner :=
  sample_signer (Some "us-east-1") "s3" "v4" (answering (Some UNSIGNED)).

Definition silent_signer : RequestSigner :=
  sample_signer (Some "us-east-1") "s3" "v4" (answering None).

(** The request as the before-sign handler of [answering] leaves it. *)
Definition seen_request : Request :=
  {| method := "GET"; url := "https://bucket.s3.amazonaws.com/key";
     headers := [("X-Seen", "yes")]; params := []; data := ""; context := ∅ |}.

(** C3, on the code. The handler answers the empty string: [sign] goes to
    [get_auth] with the version [''] and raises
    [UnknownSignatureVersionError]; had the handler answered the sentinel,
    [sign] would have returned with the request as the before-sign handler
    left it and nothing looked up; with no answer, the default [v4] signs. *)
Theorem sign_blank_response_is_not_a_bypass :
  choose_response blank_signer "ListBuckets" = Some (SvStr "")
  /\ sample_registry !! "" = None
  /\ fst (sign sample_registry sample_add_auth blank_signer "ListBuckets"
            sample_request (new_world []))
     = (Raise (UnknownSignatureVersionError ""), seen_request)
  /\ fst (sign sample_registry sample_add_auth unsigned_signer "ListBuckets"
            sample_request (new_world []))
     = (Ok tt, seen_request)
  /\ trace (snd (sign sample_registry sample_add_auth unsigned_signer "ListBuckets"
                   sample_request (new_world [])))
     = [EvChooseSigner "choose-signer.s3.ListBuckets" (choose_kw unsigned_signer);
        EvBeforeSign "before-sign.s3.ListBuckets"
          (before_kw unsigned_signer "ListBuckets")]
  /\ effective_version silent_signer "ListBuckets" = SvStr "v4"
  /\ params (snd (fst (sign sample_registry sample_add_auth silent_signer
                         "ListBuckets" sample_request (new_world []))))
     = [("Signature", "SigV4Auth")].
Proof. repeat split; vm_compute; reflexivity. Qed.

(** The same for every signer: an empty-string response that is neither
    registered nor cached makes [sign] raise. *)
Lemma sign_blank_response_raises AUTH_TYPE_MAPS add_auth self op request w :
  choose_response self op = Some (SvStr "") ->
  AUTH_TYPE_MAPS !! "" = None ->
  _cache w !! cache_key "" (_region_name self) (_signing_name self) = None ->
  fst (fst (sign AUTH_TYPE_MAPS add_auth self op request w))
  = Raise (UnknownSignatureVersionError "").
Proof.
  intros Hresp Hr Hc.
  rewrite (sign_miss_unknown AUTH_TYPE_MAPS add_auth self op request w "");
    [reflexivity | | exact Hr | exact Hc].
  unfold effective_version. rewrite Hresp. reflexivity.
Qed.

(** A handler that answers the unregistered version [v4.a], on a signer for
    region [b] and signing name [c]; an earlier [get_auth('c', 'a.b', 'v4')]
    left an instance under the key [v4.a.b.c]. *)
Definition colliding_signer : RequestSigner :=
  sample_signer (Some "b") "c" "v4" (answering (Some (SvStr "v4.a"))).

Definition colliding_world : world :=
  snd (get_auth sample_registry colliding_signer "c" (Some "a.b") (Some "v4") ∅
         (new_world [])).

Lemma sign_unregistered_version_signed :
  effective_version colliding_signer "ListBuckets" = SvStr "v4.a"
  /\ sample_registry !! "v4.a" = None
  /\ fst (sign sample_registry sample_add_auth colliding_signer "ListBuckets"
            sample_request colliding_world)
     = (Ok tt,
        {| method := "GET"; url := "https://bucket.s3.amazonaws.com/key";
           headers := [("X-Seen", "yes")];
           params := [("Signature", "SigV4Auth")]; data := ""; context := ∅ |}).
Proof. repeat split; vm_compute; reflexivity. Qed.

(** A handler that answers an unregistered version, on a new signer. *)
Definition unknown_signer : RequestSigner :=
  sample_signer (Some "us-east-1") "s3" "v4" (answering (Some (SvStr "v9"))).

Lemma sign_unknown_version_raises_witness :
  effective_version unknown_signer "ListBuckets" = SvStr "v9"
  /\ fst (sign sample_registry sample_add_auth unknown_signer "ListBuckets"
            sample_request (new_world []))
     = (Raise (UnknownSignatureVersionError "v9"), seen_request).
Proof.
  split; [vm_compute; reflexivity|].
  rewrite (sign_unknown_version_raises sample_registry sample_add_auth
             unknown_signer "ListBuckets" sample_request (new_world []) "v9").
  - vm_compute; reflexivity.
  - vm_compute; reflexivity.
  - vm_compute; reflexivity.
  - vm_compute; reflexivity.
Defined.

(** A signer of the [s3] family: both presign variants are registered. *)
Definition s3_signer : RequestSigner :=
  sample_signer (Some "us-east-1") "s3" "s3" no_handlers.

Definition demo_generate_url :=
  generate_url sample_registry string sample_create sample_fix_s3_host
    sample_add_auth sample_prepare s3_signer.

Definition demo_build_post_form_args :=
  build_post_form_args sample_registry string sample_create sample_fix_s3_host
    sample_add_auth s3_signer.

Definition demo_now : datetime := mk_datetime 2015 11 3 12 0 0.

Definition demo_conditions : list condition :=
  [CondDict [("acl", AStr "public-read")];
   CondList [AStr "content-length-range"; AInt 1; AInt 10]].

Definition demo_post_world : world :=
  snd (demo_build_post_form_args demo_now "https://bucket.s3.amazonaws.com" None
         (Some demo_conditions) 600%Z None (new_world [])).

Definition demo_url_world : world :=
  snd (demo_generate_url "https://bucket.s3.amazonaws.com/key" (Some 60%Z) None
         (new_world [])).

Example demo_expiration :
  option_map (strftime ISO8601) (datetime_add_seconds demo_now 600)
  = Some "2015-11-03T12:10:00Z".
Proof. vm_compute. reflexivity. Qed.

Example demo_expiration_overflow :
  datetime_add_seconds (mk_datetime 9999 12 31 23 59 59) 1 = None.
Proof. vm_compute. reflexivity. Qed.

(** The presigned URL carries the strategy's query parameter; the POST form
    has the raw endpoint and the strategy's field in a new mapping. *)
Example demo_generate_url_result :
  fst (demo_generate_url "https://bucket.s3.amazonaws.com/key" (Some 60%Z) None
         (new_world []))
  = Ok "https://bucket.s3.amazonaws.com/key?Signature=HmacV1QueryAuth".
Proof. vm_compute. reflexivity. Qed.

Example demo_build_post_form_args_result :
  fst (demo_build_post_form_args demo_now "https://bucket.s3.amazonaws.com" None
         (Some demo_conditions) 600%Z None (new_world []))
  = Ok ("https://bucket.s3.amazonaws.com", 0)
  /\ dicts demo_post_world = [{["signature" := "stub"]}].
Proof. split; vm_compute; reflexivity. Qed.

Lemma build_post_form_args_policy_witness :
  demo_build_post_form_args demo_now "https://bucket.s3.amazonaws.com" None
    (Some demo_conditions) 600%Z None (new_world [])
  = (Ok ("https://bucket.s3.amazonaws.com", 0), demo_post_world)
  /\ exists expire_date auth request evs,
       datetime_add_seconds demo_now 600 = Some expire_date
       /\ dt_us expire_date = (dt_us demo_now + 600 * 1000000)%Z
       /\ trace demo_post_world
          = trace (new_world []) ++ evs
            ++ [EvAddAuth auth request;
                EvFixS3Host (split_head "-" (post_version s3_signer))
                  (region_or_default s3_signer None)]
       /\ context request !! "s3-presign-post-policy"
          = Some (CtxPolicy {| expiration := strftime ISO8601 expire_date;
                               conditions := demo_conditions |}).
Proof.
  split; [vm_compute; reflexivity|].
  apply (build_post_form_args_policy sample_registry string sample_create
           sample_fix_s3_host sample_add_auth s3_signer demo_now
           "https://bucket.s3.amazonaws.com" None (Some demo_conditions) 600%Z None
           (new_world []) "https://bucket.s3.amazonaws.com" 0 demo_post_world).
  vm_compute; reflexivity.
Defined.

Lemma presign_url_asymmetry_witness :
  (exists auth request ds evs,
      trace demo_url_world
      = trace (new_world []) ++ evs ++ [EvAddAuth auth request; EvPrepare]
      /\ Forall (fun e => e <> EvPrepare) evs
      /\ "https://bucket.s3.amazonaws.com/key?Signature=HmacV1QueryAuth"
         = url (fst (sample_prepare (fst (sample_add_auth auth request ds))
                       (snd (sample_add_auth auth request ds)))))
  /\ (exists auth request ds evs,
        trace demo_post_world
        = trace (new_world []) ++ evs
          ++ [EvAddAuth auth request;
              EvFixS3Host (split_head "-" (post_version s3_signer))
                (region_or_default s3_signer None)]
        /\ Forall (fun e => e <> EvPrepare) evs
        /\ "https://bucket.s3.amazonaws.com"
           = url (fst (sample_fix_s3_host (split_head "-" (post_version s3_signer))
                         (region_or_default s3_signer None)
                         (fst (sample_add_auth auth request ds))
                         (snd (sample_add_auth auth request ds))))).
Proof.
  apply (presign_url_asymmetry sample_registry string sample_create
           sample_fix_s3_host sample_add_auth sample_prepare s3_signer
           "https://bucket.s3.amazonaws.com/key" (Some 60%Z) None (new_world [])
           "https://bucket.s3.amazonaws.com/key?Signature=HmacV1QueryAuth"
           demo_url_world
           demo_now "https://bucket.s3.amazonaws.com" None (Some demo_conditions)
           600%Z None (new_world [])
           "https://bucket.s3.amazonaws.com" 0 demo_post_world).
  - vm_compute; reflexivity.
  - vm_compute; reflexivity.
Defined.

(** The instance the first presigned URL built, with [expires=60]. *)
Definition demo_auth_query : auth_instance :=
  {| auth_id := 0; auth_class := HmacV1QueryAuth;
     auth_kwargs := <["credentials" := KCredentials sample_credentials]>
                      {["expires" := KInt 60]} |}.

Lemma generate_url_expires_not_in_key_witness :
  demo_generate_url "https://bucket.s3.amazonaws.com/key" (Some 60%Z) None
    (new_world [])
  = (Ok "https://bucket.s3.amazonaws.com/key?Signature=HmacV1QueryAuth",
     demo_url_world)
  /\ _cache demo_url_world !! query_key s3_signer None = Some demo_auth_query
  /\ auth_kwargs demo_auth_query !! "expires" = Some (KInt 60)
  /\ fst (demo_generate_url "https://bucket.s3.amazonaws.com/other" (Some 7200%Z)
            (Some "us-east-1") demo_url_world)
     = fst (demo_generate_url "https://bucket.s3.amazonaws.com/other" None
              (Some "us-east-1") demo_url_world).
Proof.
  split; [vm_compute; reflexivity|].
  destruct (generate_url_expires_not_in_key sample_registry string sample_create
              sample_fix_s3_host sample_add_auth sample_prepare s3_signer
              "https://bucket.s3.amazonaws.com/key" (Some 60%Z) None (new_world [])
              "https://bucket.s3.amazonaws.com/key?Signature=HmacV1QueryAuth"
              demo_url_world demo_url_world
              "https://bucket.s3.amazonaws.com/other" (Some "us-east-1"))
    as (auth & Hc & Hk & Hcall).
  - vm_compute; reflexivity.
  - apply rtc_refl.
  - reflexivity.
  - assert (auth = demo_auth_query) as ->.
    { assert (Hd : _cache demo_url_world !! query_key s3_signer None
                   = Some demo_auth_query) by (vm_compute; reflexivity).
      congruence. }
    split; [exact Hc|]. split; [apply Hk; vm_compute; reflexivity|].
    unfold demo_generate_url. rewrite !Hcall. reflexivity.
Defined.

(** * Further properties of the signer *)

(** ** What one call does to the cache *)

(** The cache and the count of built instances are the same in both
    states. *)
Definition same_cache (w w' : world) : Prop :=
  _cache w' = _cache w /\ next_id w' = next_id w.

Lemma same_cache_refl w : same_cache w w.
Proof. split; reflexivity. Qed.

Lemma same_cache_trans w1 w2 w3 :
  same_cache w1 w2 -> same_cache w2 w3 -> same_cache w1 w3.
Proof. intros [C1 N1] [C2 N2]. split; congruence. Qed.

Lemma same_cache_logged e w : same_cache w (logged e w).
Proof. split; reflexivity. Qed.

Section Effects.

Variable AUTH_TYPE_MAPS : gmap string auth_cls.
Variable request_dict : Type.
Variable create_request_object : request_dict -> Request.
Variable fix_s3_host : string -> option string -> ext.
Variable add_auth : auth_instance -> ext.
Variable prepare : ext.
Variable self : RequestSigner.

Local Abbreviation getAuth := (get_auth AUTH_TYPE_MAPS self).
Local Abbreviation signReq := (sign AUTH_TYPE_MAPS add_auth self).
Local Abbreviation generateUrl :=
  (generate_url AUTH_TYPE_MAPS request_dict create_request_object
     fix_s3_host add_auth prepare self).
Local Abbreviation buildPostFormArgs :=
  (build_post_form_args AUTH_TYPE_MAPS request_dict create_request_object
     fix_s3_host add_auth self).
Local Abbreviation lifeStep :=
  (step AUTH_TYPE_MAPS request_dict create_request_object
     fix_s3_host add_auth prepare self).
Local Abbreviation isReachable :=
  (reachable AUTH_TYPE_MAPS request_dict create_request_object
     fix_s3_host add_auth prepare self).

(** From [w] to [w'] one instance was built and stored: of the class
    registered for the version [v], with the keyword arguments of
    [get_auth], under the key of [(v, rn, sn)], which was free. *)
Definition added (sn : string) (rn : option string) (v : string)
    (kw : gmap string kwval) (w w' : world) : Prop :=
  exists cls,
    _cache w !! cache_key v rn sn = None
    /\ AUTH_TYPE_MAPS !! v = Some cls
    /\ (REQUIRES_REGION cls = true -> is_Some (_region_name self))
    /\ _cache w' = <[cache_key v rn sn := built self cls sn rn kw w]> (_cache w)
    /\ next_id w' = S (next_id w).

Lemma added_same_l sn rn v kw w0 w w' :
  same_cache w0 w -> added sn rn v kw w w' -> added sn rn v kw w0 w'.
Proof.
  intros [C N] (cls & Hc & Hr & Hq & Hc' & Hn). exists cls.
  unfold built in *. rewrite C, N in *. auto.
Qed.

Lemma added_same_r sn rn v kw w w1 w' :
  added sn rn v kw w w1 -> same_cache w1 w' -> added sn rn v kw w w'.
Proof.
  intros (cls & Hc & Hr & Hq & Hc' & Hn) [C N]. exists cls.
  rewrite C, N. auto.
Qed.

(** A call of [get_auth], whatever its outcome, leaves the cache as it was
    or adds the instance of its own key. *)
Lemma get_auth_effect sn rn sv kw w r w' :
  getAuth sn rn sv kw w = (r, w') ->
  same_cache w w' \/ added sn rn (version_or_default self sv) kw w w'.
Proof.
  intros H.
  pose proof (get_auth_cases AUTH_TYPE_MAPS self sn rn sv kw w) as C.
  rewrite H in C. inversion C; subst; try (left; apply same_cache_logged).
  right. eexists. repeat split; eauto.
Qed.

Lemma sign_effect op request w r request' w' :
  signReq op request w = (r, request', w') ->
  same_cache w w'
  \/ exists v, effective_version self op = SvStr v
       /\ added (_signing_name self) (_region_name self) v ∅ w w'.
Proof.
  rewrite sign_eq. cbv zeta.
  assert (S0 : same_cache w (after_events self op request w)) by (split; reflexivity).
  destruct (effective_version self op) as [v|].
  - destruct (getAuth _ _ _ _ _) as [[signer|e] w2] eqn:E; intros [= <- <- <-].
    + apply get_auth_effect in E as [S1 | A].
      * left. eapply same_cache_trans; [exact S0|].
        eapply same_cache_trans; [exact S1 | split; reflexivity].
      * right. exists v. split; [reflexivity|].
        eapply added_same_l; [exact S0|].
        eapply added_same_r; [exact A | split; reflexivity].
    + apply get_auth_effect in E as [S1 | A].
      * left. exact (same_cache_trans _ _ _ S0 S1).
      * right. exists v. split; [reflexivity|].
        exact (added_same_l _ _ _ _ _ _ _ S0 A).
  - intros [= <- <- <-]. left. exact S0.
Qed.

Lemma generate_url_effect rd expires_in rn w r w' :
  generateUrl rd expires_in rn w = (r, w') ->
  same_cache w w'
  \/ added (_signing_name self) (region_or_default self rn) (query_version self)
       (expires_kwargs expires_in) w w'.
Proof.
  rewrite generate_url_eq.
  destruct (getAuth _ _ _ _ _) as [[auth|e] w1] eqn:E; cbv zeta; intros [= <- <-].
  - apply get_auth_effect in E as [S1 | A].
    + left. eapply same_cache_trans; [exact S1 | split; reflexivity].
    + right. eapply added_same_r; [exact A | split; reflexivity].
  - apply get_auth_effect in E as [S1 | A]; auto.
Qed.

Lemma with_fields_same fields w : same_cache w (snd (with_fields fields w)).
Proof. destruct fields; split; reflexivity. Qed.

Lemma build_post_form_args_effect now rd fields conds expires_in rn w r w' :
  buildPostFormArgs now rd fields conds expires_in rn w = (r, w') ->
  same_cache w w'
  \/ added (_signing_name self) (region_or_default self rn) (post_version self)
       ∅ w w'.
Proof.
  rewrite build_post_form_args_eq.
  pose proof (with_fields_same fields w) as S0.
  destruct (with_fields fields w) as [f w0]. cbn [snd] in S0.
  destruct (datetime_add_seconds now expires_in) as [d|].
  2:{ intros [= <- <-]. left. exact S0. }
  cbv zeta.
  destruct (getAuth _ _ _ _ _) as [[auth|e] w1] eqn:E; intros [= <- <-].
  - apply get_auth_effect in E as [S1 | A].
    + left. eapply same_cache_trans; [exact S0|].
      eapply same_cache_trans; [exact S1 | split; reflexivity].
    + right. eapply added_same_l; [exact S0|].
      eapply added_same_r; [exact A | split; reflexivity].
  - apply get_auth_effect in E as [S1 | A].
    + left. exact (same_cache_trans _ _ _ S0 S1).
    + right. exact (added_same_l _ _ _ _ _ _ _ S0 A).
Qed.

(** X1. The cache is append-only: an entry, once there, is neither evicted
    nor replaced by anything the signer does later. *)
Theorem cache_entries_persist key auth w w' :
  _cache w !! key = Some auth ->
  rtc (step AUTH_TYPE_MAPS request_dict create_request_object fix_s3_host
         add_auth prepare self) w w' ->
  _cache w' !! key = Some auth.
Proof.
  intros Hc Hs.
  destruct (steps_grows _ _ _ _ _ _ _ _ _ Hs) as (Hsub & _ & _).
  eapply lookup_weaken; eassumption.
Qed.

(** X2. One call of any of the four methods, whatever its outcome, builds at
    most one instance: it leaves the cache and the count of instances as
    they were, or it stores one new instance under a key that was free and
    counts it. *)
Theorem step_adds_at_most_one w w' :
  lifeStep w w' ->
  same_cache w w' \/ exists sn rn v kw, added sn rn v kw w w'.
Proof.
  intros [sn rn sv kw r H | op request r request' H | rd e rn r H
         | now rd f c e rn r H | ds ->].
  - apply get_auth_effect in H as [S | A]; eauto 6.
  - apply sign_effect in H as [S | (v & _ & A)]; eauto 6.
  - apply generate_url_effect in H as [S | A]; eauto 6.
  - apply build_post_form_args_effect in H as [S | A]; eauto 6.
  - left. split; reflexivity.
Qed.

(** X3. Every instance ever built is in the cache, once: in every state a
    signer can reach, the cache has as many entries as instances were
    built. *)
Theorem reachable_cache_size w :
  reachable AUTH_TYPE_MAPS request_dict create_request_object fix_s3_host
    add_auth prepare self w ->
  size (_cache w) = next_id w.
Proof.
  intros [ds H].
  refine (rtc_ind_r (fun w => size (_cache w) = next_id w) _ _ _ _ H);
    [|intros w1 w2 _ Hstep IH].
  - cbn. apply map_size_empty.
  - apply step_adds_at_most_one in Hstep
      as [[C N] | (sn & rn & v & kw & cls & Hc & _ & _ & C & N)].
    + rewrite C, N. exact IH.
    + rewrite C, N, map_size_insert_None by exact Hc. rewrite IH. reflexivity.
Qed.

(** An instance as [get_auth] builds them: of a registered class, with the
    signer's credentials, and, for a class that requires a region, on a
    signer that has one and with region and service name among the
    arguments. *)
Definition well_built (auth : auth_instance) : Prop :=
  (exists v, AUTH_TYPE_MAPS !! v = Some (auth_class auth))
  /\ auth_kwargs auth !! "credentials" = Some (KCredentials (_credentials self))
  /\ (REQUIRES_REGION (auth_class auth) = true ->
      is_Some (_region_name self)
      /\ is_Some (auth_kwargs auth !! "region_name")
      /\ exists sn, auth_kwargs auth !! "service_name" = Some (KStr sn)).

Lemma built_well_built v cls sn rn kw w :
  AUTH_TYPE_MAPS !! v = Some cls ->
  (REQUIRES_REGION cls = true -> is_Some (_region_name self)) ->
  well_built (built self cls sn rn kw w).
Proof.
  intros Hr Hq. unfold well_built, built, build_kwargs. cbn [auth_class auth_kwargs].
  split; [eauto|]. destruct (REQUIRES_REGION cls) eqn:Q.
  - split.
    + rewrite !lookup_insert_ne by discriminate. apply lookup_insert_eq.
    + intros _. split; [auto|]. split.
      * rewrite lookup_insert_ne by discriminate. rewrite lookup_insert_eq. eauto.
      * exists sn. apply lookup_insert_eq.
  - split; [apply lookup_insert_eq | discriminate].
Qed.

(** X4. Whatever keyword arguments callers pass, every instance in the cache
    of a reachable state is of a registered class and carries the signer's
    own credentials; an instance of a class that requires a region exists
    only on a signer that has a region, and then carries a region and a
    service name. *)
Theorem reachable_cache_well_built w key auth :
  isReachable w ->
  _cache w !! key = Some auth ->
  well_built auth.
Proof.
  intros [ds H]. revert key auth.
  refine (rtc_ind_r (fun w => forall key auth,
                       _cache w !! key = Some auth -> well_built auth) _ _ _ _ H);
    [|intros w1 w2 _ Hstep IH]; intros key auth.
  - cbn. rewrite lookup_empty. discriminate.
  - apply step_adds_at_most_one in Hstep
      as [[C N] | (sn & rn & v & kw & cls & Hc & Hr & Hq & C & N)]; rewrite C.
    + apply IH.
    + rewrite lookup_insert. case_decide.
      * intros [= <-]. eapply built_well_built; eassumption.
      * apply IH.
Qed.

(** [get_auth] never raises [OverflowError]. *)
Lemma get_auth_not_overflow sn rn sv kw w e w' :
  getAuth sn rn sv kw w = (Raise e, w') -> e <> OverflowError.
Proof.
  intros H.
  pose proof (get_auth_cases AUTH_TYPE_MAPS self sn rn sv kw w) as C.
  rewrite H in C. inversion C; discriminate.
Qed.

(** X5. When [get_auth] raises, the key was not cached and nothing changed
    but the log, which gained the cache lookup: nothing was stored. The
    exception is [UnknownSignatureVersionError], carrying the resolved
    version, which is then unregistered; or [NoRegionError], and then the
    version's class requires a region and the signer has none; or the
    [TypeError] of the class call, and then the class is registered, the
    region check was passed and the keyword arguments, the caller's
    included, do not fit the constructor. *)
Theorem get_auth_raise_inv sn rn sv kw w e w' :
  getAuth sn rn sv kw w = (Raise e, w') ->
  w' = logged (EvCacheLookup (key_of self sn rn sv)) w
  /\ _cache w !! key_of self sn rn sv = None
  /\ ((e = UnknownSignatureVersionError (version_or_default self sv)
       /\ AUTH_TYPE_MAPS !! version_or_default self sv = None)
      \/ (e = NoRegionError
          /\ _region_name self = None
          /\ exists cls, AUTH_TYPE_MAPS !! version_or_default self sv = Some cls
                         /\ REQUIRES_REGION cls = true)
      \/ (e = TypeError
          /\ exists cls, AUTH_TYPE_MAPS !! version_or_default self sv = Some cls
                         /\ (REQUIRES_REGION cls = true -> is_Some (_region_name self))
                         /\ binds cls (build_kwargs (_credentials self) cls sn rn kw)
                            = false)).
Proof.
  intros H.
  pose proof (get_auth_cases AUTH_TYPE_MAPS self sn rn sv kw w) as C.
  rewrite H in C. inversion C; subst; (split; [reflexivity|]); (split; [assumption|]).
  - left. auto.
  - right. left. eauto.
  - right. right. eauto.
Qed.

(** ** The outcomes of [sign] *)

(** The key [sign] looks under for the version [v]. *)
Definition sign_key (v : string) : string :=
  cache_key v (_region_name self) (_signing_name self).

(** X7. When [sign] returns, either the effective version is the sentinel,
    and then the request is what the before-sign handlers made of it and
    the cache is untouched; or the version is a string, and then the
    request is the result of applying, to the request the handlers left,
    the instance now cached under the version's key, that application being
    the last thing logged. *)
Theorem sign_ok_inv op request w request' w' :
  signReq op request w = (Ok tt, request', w') ->
  (effective_version self op = UNSIGNED
   /\ request' = fst (after_before_sign self op request w)
   /\ w' = after_events self op request w)
  \/ (exists v auth ds evs,
        effective_version self op = SvStr v
        /\ _cache w' !! sign_key v = Some auth
        /\ request' = fst (add_auth auth (fst (after_before_sign self op request w)) ds)
        /\ trace w' = trace w ++ evs
                      ++ [EvAddAuth auth (fst (after_before_sign self op request w))]
        /\ Forall (fun ev => forall a rq, ev <> EvAddAuth a rq) evs).
Proof.
  rewrite sign_eq. cbv zeta.
  destruct (effective_version self op) as [v|].
  - destruct (getAuth _ _ _ _ _) as [[signer|e0] w2] eqn:E; [|discriminate].
    intros [= <- <-]. right. exists v, signer, (dicts w2).
    pose proof (get_auth_ok_cached _ _ _ _ _ _ _ _ _ E) as Hc.
    apply get_auth_ok_inv in E as [[_ ->] | [_ (cls & _ & _ & ->)]].
    + exists [EvChooseSigner (choose_name self op) (choose_kw self);
              EvBeforeSign (before_name self op) (before_kw self op);
              EvCacheLookup (sign_key v)].
      split; [reflexivity|]. split; [exact Hc|]. split; [reflexivity|].
      split.
      * cbn [trace after_add_auth logged after_events].
        rewrite <- !app_assoc. reflexivity.
      * repeat constructor; discriminate.
    + exists [EvChooseSigner (choose_name self op) (choose_kw self);
              EvBeforeSign (before_name self op) (before_kw self op);
              EvCacheLookup (sign_key v);
              EvConstruct signer].
      split; [reflexivity|]. split; [exact Hc|]. split; [reflexivity|].
      split.
      * cbn [trace after_add_auth after_build after_events].
        rewrite <- !app_assoc. reflexivity.
      * repeat constructor; discriminate.
  - intros [= <- <-]. left. auto.
Qed.

(** X8. One signer signs many requests with one instance: after a call of
    [sign] that returned with the version [v], every later call whose
    effective version is [v] returns too, applies an instance found in the
    cache and builds nothing. *)
Theorem sign_reuses_instance op1 request1 w r1 w1 v w2 op2 request2 :
  signReq op1 request1 w = (Ok tt, r1, w1) ->
  effective_version self op1 = SvStr v ->
  rtc lifeStep w1 w2 ->
  effective_version self op2 = SvStr v ->
  exists auth,
    _cache w1 !! sign_key v = Some auth
    /\ signReq op2 request2 w2
       = (Ok tt,
          fst (add_auth auth (fst (after_before_sign self op2 request2 w2))
                 (snd (after_before_sign self op2 request2 w2))),
          after_add_auth add_auth auth (fst (after_before_sign self op2 request2 w2))
            (logged (EvCacheLookup (sign_key v))
               (after_events self op2 request2 w2))).
Proof.
  intros H1 Hv1 Hs Hv2.
  apply sign_ok_inv in H1 as [(Hu & _) | (v' & auth & ds & evs & Hv & Hc & _)];
    [congruence|].
  assert (v' = v) as -> by congruence.
  exists auth. split; [exact Hc|].
  pose proof (cache_entries_persist _ _ _ _ Hc Hs) as Hc2.
  rewrite sign_eq. cbv zeta. rewrite Hv2.
  rewrite (get_auth_hit AUTH_TYPE_MAPS self (_signing_name self)
             (_region_name self) (Some v) ∅
             (after_events self op2 request2 w2) auth Hc2).
  reflexivity.
Qed.

(** ** The expiration of a presigned POST *)

(** X10. [build_post_form_args] raises [OverflowError] exactly when the
    clock reading plus [expires_in] seconds is no [datetime]; the registry
    and the cache play no part in it. *)
Theorem build_post_form_args_overflow_iff now rd fields conds expires_in rn w :
  fst (buildPostFormArgs now rd fields conds expires_in rn w) = Raise OverflowError
  <-> datetime_add_seconds now expires_in = None.
Proof.
  rewrite build_post_form_args_eq.
  destruct (with_fields fields w) as [f w0].
  destruct (datetime_add_seconds now expires_in) as [d|]; cbv zeta.
  - destruct (getAuth _ _ _ _ _) as [[auth|e0] w1] eqn:E; cbn [fst].
    + split; discriminate.
    + apply get_auth_not_overflow in E.
        split; [intros [= ->]; congruence | discriminate].
  - cbn [fst]. split; reflexivity.
Qed.

(** ** What the strategy is handed *)

Lemma split_head_app_sep (sep : ascii) (v t : string) :
  split_head sep (v +:+ String sep t) = split_head sep v.
Proof.
  induction v as [|c v IH].
  - change ("" +:+ String sep t) with (String sep t).
    cbn [split_head]. rewrite Ascii.eqb_refl. reflexivity.
  - change (String c v +:+ String sep t) with (String c (v +:+ String sep t)).
    cbn [split_head]. destruct (Ascii.eqb c sep); [reflexivity|].
    f_equal. exact IH.
Qed.

(** A suffix that starts with the separator does not change the family. *)
Lemma split_head_derive_variant (sep : ascii) (v t : string) :
  split_head sep (derive_variant v (String sep t)) = split_head sep v.
Proof.
  unfold derive_variant. destruct (endswith v (String sep t)); cbn [negb].
  - reflexivity.
  - apply split_head_app_sep.
Qed.

(** X12. When [generate_url] returns, its last three collaborator calls
    were: the host fix, for the signature family of the configured version
    (the text before its first dash, whether or not the version already
    carries [-query]) and the resolved region; the strategy, applied to the
    request as the host fix left it; and [prepare]. *)
Theorem generate_url_signs_fixed_request rd expires_in rn w u w' :
  generateUrl rd expires_in rn w = (Ok u, w') ->
  exists auth ds evs,
    trace w' = trace w ++ evs
               ++ [EvFixS3Host (split_head "-" (_signature_version self))
                     (region_or_default self rn);
                   EvAddAuth auth
                     (fst (fix_s3_host (split_head "-" (_signature_version self))
                             (region_or_default self rn)
                             (create_request_object rd) ds));
                   EvPrepare]
    /\ _cache w' !! query_key self rn = Some auth.
Proof.
  rewrite generate_url_eq.
  destruct (getAuth _ _ _ _ _) as [[auth|e0] w1] eqn:E; [|discriminate].
  cbv zeta. intros [= <- <-].
  pose proof (get_auth_ok_cached _ _ _ _ _ _ _ _ _ E) as Hc.
  apply get_auth_trace in E as (evs & Ht & _).
  exists auth, (dicts w1), (evs ++ [EvCreateRequest]).
  split; [|exact Hc].
  cbn [trace]. unfold url_request, query_version.
  rewrite (split_head_derive_variant "-" (_signature_version self) "query").
  rewrite Ht, <- !app_assoc. reflexivity.
Qed.

(** X13. When [build_post_form_args] returns, the strategy was handed the
    request exactly as [create_request_object] made it, but for two context
    entries: the policy, and the [fields] mapping by name. That name is
    also what the call returns; it is the caller's, or, when the caller gave
    none, a new one beyond every mapping that existed. The host fix comes
    after the strategy, for the family of the configured version. *)
Theorem build_post_form_args_request now rd fields conds expires_in rn w u f w' :
  buildPostFormArgs now rd fields conds expires_in rn w = (Ok (u, f), w') ->
  exists auth request evs,
    trace w' = trace w ++ evs
               ++ [EvAddAuth auth request;
                   EvFixS3Host (split_head "-" (_signature_version self))
                     (region_or_default self rn)]
    /\ f = match fields with
           | Some f0 => f0
           | None => length (dicts w)
           end
    /\ method request = method (create_request_object rd)
    /\ url request = url (create_request_object rd)
    /\ headers request = headers (create_request_object rd)
    /\ params request = params (create_request_object rd)
    /\ data request = data (create_request_object rd)
    /\ context request !! "s3-presign-post-fields" = Some (CtxFields f)
    /\ is_Some (context request !! "s3-presign-post-policy")
    /\ forall k, k <> "s3-presign-post-fields" -> k <> "s3-presign-post-policy" ->
                 context request !! k = context (create_request_object rd) !! k.
Proof.
  rewrite build_post_form_args_eq.
  assert (Ht0 : trace (snd (with_fields fields w)) = trace w)
    by (destruct fields; reflexivity).
  assert (Hf0 : fst (with_fields fields w)
                = match fields with Some f0 => f0 | None => length (dicts w) end)
    by (destruct fields; reflexivity).
  destruct (with_fields fields w) as [f0 w0]. cbn [fst snd] in *.
  destruct (datetime_add_seconds now expires_in) as [d|]; [|discriminate].
  cbv zeta.
  destruct (getAuth _ _ _ _ _) as [[auth|e0] w1] eqn:E; [|discriminate].
  intros [= <- <- <-].
  apply get_auth_trace in E as (evs & Ht & _).
  exists auth. eexists. exists (evs ++ [EvCreateRequest]).
  split.
  { cbn [trace]. unfold post_version.
    rewrite (split_head_derive_variant "-" (_signature_version self) "presign-post").
    rewrite Ht, Ht0, <- !app_assoc. reflexivity. }
  split; [exact Hf0|].
  unfold post_request, set_context. cbn [method url headers params data context].
  repeat (split; [reflexivity|]).
  split; [rewrite lookup_insert_ne by discriminate; apply lookup_insert_eq|].
  split; [rewrite lookup_insert_eq; eauto|].
  intros k H1 H2. rewrite !lookup_insert_ne by congruence. reflexivity.
Qed.

(** ** Keys that tell versions apart *)

Lemma list_ascii_of_string_app (a b : string) :
  list_ascii_of_string (a +:+ b) = list_ascii_of_string a ++ list_ascii_of_string b.
Proof.
  induction a as [|c a IH].
  - reflexivity.
  - change (String c a +:+ b) with (String c (a +:+ b)).
    cbn [list_ascii_of_string app]. f_equal. exact IH.
Qed.

Lemma string_app_inv_tail (a b t : string) : a +:+ t = b +:+ t -> a = b.
Proof.
  intros E. apply (f_equal list_ascii_of_string) in E.
  rewrite !list_ascii_of_string_app in E. apply app_inv_tail in E.
  rewrite <- (string_of_list_ascii_of_string a),
          <- (string_of_list_ascii_of_string b), E.
  reflexivity.
Qed.

(** With region and signing name fixed, the key tells the version. *)
Lemma cache_key_version_inj (v1 v2 : string) (rn : option string) (sn : string) :
  cache_key v1 rn sn = cache_key v2 rn sn -> v1 = v2.
Proof. unfold cache_key. apply string_app_inv_tail. Qed.

(** X14. For one region name and one signing name, two calls of [get_auth]
    that return give the same object exactly when their versions, once
    [None] is replaced by the configured default, are equal: an in-place
    strategy and its presign variants are never one instance. *)
Theorem get_auth_same_instance_iff_same_version
    sn rn sv1 kw1 sv2 kw2 w w1 w2 w3 auth1 auth2 :
  isReachable w ->
  getAuth sn rn sv1 kw1 w = (Ok auth1, w1) ->
  rtc lifeStep w1 w2 ->
  getAuth sn rn sv2 kw2 w2 = (Ok auth2, w3) ->
  auth_id auth1 = auth_id auth2
  <-> version_or_default self sv1 = version_or_default self sv2.
Proof.
  intros Hr H1 Hs H2.
  pose proof (get_auth_ok_stays _ _ _ _ _ _ _ _ _ _ _ _ _ _ _ H1 Hs) as Hc1.
  assert (Hwf : cache_wf w2).
  { apply (steps_grows _ _ _ _ _ _ _ _ _ Hs).
    apply (keeps_get_auth _ _ _ _ _ _ _ _ _ H1).
    eapply reachable_wf, Hr. }
  destruct Hwf as [Hlt Hinj]. split.
  - intros Hid.
    apply get_auth_ok_inv in H2 as [[Hc2 _] | [_ (cls & _ & -> & _)]].
    + apply (cache_key_version_inj _ _ rn sn). eapply Hinj; eassumption.
    + specialize (Hlt _ _ Hc1). cbn in Hid. lia.
  - intros Hv.
    assert (Hk : key_of self sn rn sv2 = key_of self sn rn sv1)
      by (unfold key_of; rewrite Hv; reflexivity).
    rewrite (get_auth_hit AUTH_TYPE_MAPS self sn rn sv2 kw2 w2 auth1) in H2
      by (rewrite Hk; exact Hc1).
    injection H2 as <- _. reflexivity.
Qed.

(** ** The suffix rule, case by case *)

Lemma endswith_inv (v suffix : string) :
  endswith v suffix = true -> exists p, v = p +:+ suffix.
Proof.
  induction v as [|c v IH]; unfold endswith; fold endswith.
  - destruct (String.eqb_spec "" suffix) as [<-|]; [|discriminate].
    intros _. exists "". reflexivity.
  - destruct (String.eqb_spec (String c v) suffix) as [<-|].
    + intros _. exists "". reflexivity.
    + intros H. destruct (IH H) as [p ->]. exists (String c p). reflexivity.
Qed.

(** X15. The variant of a version: a version that already ends with the
    suffix is left alone, and every other version, the empty one and those
    shorter than the suffix included, gets the suffix appended. *)
Theorem derive_variant_cases (v suffix : string) :
  ((exists p, v = p +:+ suffix) /\ derive_variant v suffix = v)
  \/ ((forall p, v <> p +:+ suffix) /\ derive_variant v suffix = v +:+ suffix).
Proof.
  unfold derive_variant. destruct (endswith v suffix) eqn:E; cbn [negb].
  - left. split; [apply endswith_inv, E | reflexivity].
  - right. split; [|reflexivity].
    intros p ->. rewrite endswith_app in E. discriminate.
Qed.

(** ** A signer used with its own region and signing name *)

(** One step of such use: [sign], the presign methods with the signer's
    region (given or by default), [get_auth] with the signer's signing name
    and region; or the caller changing mappings of its own. *)
Inductive own_step (w w' : world) : Prop :=
| own_get_auth sv kw r :
    getAuth (_signing_name self) (_region_name self) sv kw w = (r, w') ->
    own_step w w'
| own_sign op request r request' :
    signReq op request w = (r, request', w') -> own_step w w'
| own_generate_url rd expires_in rn r :
    region_or_default self rn = _region_name self ->
    generateUrl rd expires_in rn w = (r, w') -> own_step w w'
| own_build_post_form_args now rd fields conds expires_in rn r :
    region_or_default self rn = _region_name self ->
    buildPostFormArgs now rd fields conds expires_in rn w = (r, w') ->
    own_step w w'
| own_caller ds :
    w' = set_dicts ds w -> own_step w w'.

(** Every key in the cache is the key of a registered version with the
    signer's region and signing name. *)
Definition own_keys (w : world) : Prop :=
  forall key auth, _cache w !! key = Some auth ->
    exists v, key = sign_key v /\ is_Some (AUTH_TYPE_MAPS !! v).

Lemma own_step_effect w w' :
  own_step w w' ->
  same_cache w w'
  \/ exists v kw, added (_signing_name self) (_region_name self) v kw w w'.
Proof.
  intros [sv kw r H | op request r request' H | rd e rn r Hrn H
         | now rd f c e rn r Hrn H | ds ->].
  - apply get_auth_effect in H as [S | A]; eauto.
  - apply sign_effect in H as [S | (v & _ & A)]; eauto.
  - apply generate_url_effect in H as [S | A]; [auto|].
    rewrite Hrn in A. eauto.
  - apply build_post_form_args_effect in H as [S | A]; [auto|].
    rewrite Hrn in A. eauto.
  - left. split; reflexivity.
Qed.

Lemma own_steps_keys ds w : rtc own_step (new_world ds) w -> own_keys w.
Proof.
  intros H.
  refine (rtc_ind_r own_keys _ _ _ _ H); [|intros w1 w2 _ Hstep IH];
    intros key auth.
  - cbn. rewrite lookup_empty. discriminate.
  - apply own_step_effect in Hstep
      as [[C N] | (v & kw & cls & Hc & Hr & _ & C & _)]; rewrite C.
    + apply IH.
    + rewrite lookup_insert. case_decide.
      * intros _. exists v. split; [symmetry; assumption | eauto].
      * apply IH.
Qed.

(** X16. On a signer only ever used with its own region and signing name,
    an effective version without a registered class always makes [sign]
    raise [UnknownSignatureVersionError], with the request as the
    before-sign handlers left it and nothing built or applied: no cached key
    can stand in for an unregistered version. *)
Theorem sign_unknown_version_own_use ds w op request v :
  rtc own_step (new_world ds) w ->
  effective_version self op = SvStr v ->
  AUTH_TYPE_MAPS !! v = None ->
  signReq op request w
  = (Raise (UnknownSignatureVersionError v),
     fst (after_before_sign self op request w),
     logged (EvCacheLookup (sign_key v)) (after_events self op request w)).
Proof.
  intros Hown Hv Hr. apply sign_miss_unknown; [exact Hv | exact Hr |].
  destruct (_cache w !! cache_key v (_region_name self) (_signing_name self))
    as [auth|] eqn:Hc; [|reflexivity].
  destruct (own_steps_keys _ _ Hown _ _ Hc) as (v' & Hk & [cls Hcls]).
  apply cache_key_version_inj in Hk. congruence.
Qed.

(** ** Failures under own use *)

(** Every entry of the cache sits under the key of the version its class is
    registered for, with the signer's region and signing name, and a class
    that requires a region is there only if the signer has one. *)
Definition own_entries (w : world) : Prop :=
  forall key auth, _cache w !! key = Some auth ->
    exists v, key = sign_key v
              /\ AUTH_TYPE_MAPS !! v = Some (auth_class auth)
              /\ (REQUIRES_REGION (auth_class auth) = true ->
                  is_Some (_region_name self)).

Lemma own_steps_entries ds w : rtc own_step (new_world ds) w -> own_entries w.
Proof.
  intros H.
  refine (rtc_ind_r own_entries _ _ _ _ H); [|intros w1 w2 _ Hstep IH];
    intros key auth.
  - cbn. rewrite lookup_empty. discriminate.
  - apply own_step_effect in Hstep
      as [[C N] | (v & kw & cls & Hc & Hr & Hq & C & _)]; rewrite C.
    + apply IH.
    + rewrite lookup_insert. case_decide.
      * intros [= <-]. exists v. cbn [auth_class built]. auto.
      * apply IH.
Qed.

(** No entry stands under the key of an unregistered version. *)
Lemma own_entries_unregistered w v :
  own_entries w -> AUTH_TYPE_MAPS !! v = None -> _cache w !! sign_key v = None.
Proof.
  intros Hown Hr. destruct (_cache w !! sign_key v) as [auth|] eqn:Hc; [|reflexivity].
  destruct (Hown _ _ Hc) as (v' & Hk & Hcls & _).
  apply cache_key_version_inj in Hk. congruence.
Qed.

(** X6. A signer without a region, only ever used with its own region and
    signing name, cannot sign with a version whose class requires a region:
    every such [sign] raises [NoRegionError] at the region check, with the
    request as the before-sign handlers left it; nothing is built, stored
    or applied. *)
Theorem sign_no_region_own_use ds w op request v cls :
  rtc own_step (new_world ds) w ->
  _region_name self = None ->
  effective_version self op = SvStr v ->
  AUTH_TYPE_MAPS !! v = Some cls ->
  REQUIRES_REGION cls = true ->
  signReq op request w
  = (Raise NoRegionError,
     fst (after_before_sign self op request w),
     logged (EvCacheLookup (sign_key v)) (after_events self op request w)).
Proof.
  intros Hown Hn Hv Hr Hq.
  assert (Hc : _cache w !! sign_key v = None).
  { destruct (_cache w !! sign_key v) as [auth|] eqn:Hc; [|reflexivity].
    destruct (own_steps_entries _ _ Hown _ _ Hc) as (v' & Hk & Hcls & Hreg).
    apply cache_key_version_inj in Hk. subst v'.
    assert (auth_class auth = cls) as Hcl by congruence.
    rewrite Hcl in Hreg. destruct (Hreg Hq) as [r Hsome]. congruence. }
  rewrite sign_eq. cbv zeta. rewrite Hv.
  rewrite (get_auth_no_region AUTH_TYPE_MAPS self (_signing_name self)
             (_region_name self) (Some v) ∅ (after_events self op request w)
             cls Hc Hr Hq Hn).
  reflexivity.
Qed.

(** X9. On a signer only ever used with its own region and signing name,
    [generate_url] for that region with an unregistered [-query] variant
    always raises [UnknownSignatureVersionError], naming the variant and
    not the configured version; only the cache lookup has taken place: no
    request is created and no collaborator called. *)
Theorem generate_url_unknown_variant_own_use ds w rd expires_in rn :
  rtc own_step (new_world ds) w ->
  region_or_default self rn = _region_name self ->
  AUTH_TYPE_MAPS !! query_version self = None ->
  generateUrl rd expires_in rn w
  = (Raise (UnknownSignatureVersionError (query_version self)),
     logged (EvCacheLookup (sign_key (query_version self))) w).
Proof.
  intros Hown Hrn Hr.
  pose proof (own_entries_unregistered _ _ (own_steps_entries _ _ Hown) Hr) as Hc.
  rewrite generate_url_eq, Hrn.
  rewrite (get_auth_unknown AUTH_TYPE_MAPS self (_signing_name self)
             (_region_name self) (Some (query_version self))
             (expires_kwargs expires_in) w Hc Hr).
  reflexivity.
Qed.

(** X11. Likewise [build_post_form_args] with an unregistered
    [-presign-post] variant, when the expiration does not overflow: it
    raises [UnknownSignatureVersionError] naming the variant, after the
    cache lookup; the cache is untouched, no request is created and no
    collaborator called. *)
Theorem build_post_form_args_unknown_variant_own_use
    ds w now rd fields conds expires_in rn expire_date :
  rtc own_step (new_world ds) w ->
  region_or_default self rn = _region_name self ->
  datetime_add_seconds now expires_in = Some expire_date ->
  AUTH_TYPE_MAPS !! post_version self = None ->
  buildPostFormArgs now rd fields conds expires_in rn w
  = (Raise (UnknownSignatureVersionError (post_version self)),
     logged (EvCacheLookup (sign_key (post_version self)))
       (snd (with_fields fields w))).
Proof.
  intros Hown Hrn Hd Hr.
  pose proof (own_entries_unregistered _ _ (own_steps_entries _ _ Hown) Hr) as Hc.
  rewrite build_post_form_args_eq, Hd, Hrn.
  pose proof (with_fields_same fields w) as [C0 _].
  destruct (with_fields fields w) as [f w0]. cbn [snd] in *. cbv zeta.
  rewrite (get_auth_unknown AUTH_TYPE_MAPS self (_signing_name self)
             (_region_name self) (Some (post_version self)) ∅ w0)
    by (try rewrite C0; assumption).
  reflexivity.
Qed.

(** ** Presigned POSTs share the instance, not the policy *)

(** X17. After a call of [build_post_form_args] that returned, a later call
    for the same region whose expiration does not overflow returns as well,
    builds nothing and applies the instance of the first call; the policy
    it hands over is made from its own clock reading, [expires_in] and
    conditions. *)
Theorem build_post_form_args_again
    now1 rd1 fields1 conds1 expires1 rn1 w u1 f1 w1 w2
    now2 rd2 fields2 conds2 expires2 rn2 expire_date :
  buildPostFormArgs now1 rd1 fields1 conds1 expires1 rn1 w = (Ok (u1, f1), w1) ->
  rtc lifeStep w1 w2 ->
  region_or_default self rn2 = region_or_default self rn1 ->
  datetime_add_seconds now2 expires2 = Some expire_date ->
  exists auth request u2 f2 w3,
    _cache w1 !! cache_key (post_version self) (region_or_default self rn1)
                   (_signing_name self) = Some auth
    /\ buildPostFormArgs now2 rd2 fields2 conds2 expires2 rn2 w2 = (Ok (u2, f2), w3)
    /\ same_cache w2 w3
    /\ trace w3 = trace w2
                  ++ [EvCacheLookup (cache_key (post_version self)
                                       (region_or_default self rn1)
                                       (_signing_name self));
                      EvCreateRequest;
                      EvAddAuth auth request;
                      EvFixS3Host (split_head "-" (post_version self))
                        (region_or_default self rn2)]
    /\ context request !! "s3-presign-post-policy"
       = Some (CtxPolicy
                 {| expiration := strftime ISO8601 expire_date;
                    conditions := match conds2 with
                                  | None => []
                                  | Some c => c
                                  end |}).
Proof.
  intros H1 Hs Hrn Hd.
  assert (Hc1 : exists auth,
             _cache w1 !! cache_key (post_version self) (region_or_default self rn1)
                            (_signing_name self) = Some auth).
  { rewrite build_post_form_args_eq in H1.
    destruct (with_fields fields1 w) as [f0 w0].
    destruct (datetime_add_seconds now1 expires1); [|discriminate].
    cbv zeta in H1.
    destruct (getAuth _ _ _ _ _) as [[auth|e0] w'] eqn:E; [|discriminate].
    injection H1 as _ _ <-. exists auth. cbn [_cache].
    exact (get_auth_ok_cached _ _ _ _ _ _ _ _ _ E). }
  destruct Hc1 as [auth Hc1]. exists auth.
  pose proof (cache_entries_persist _ _ _ _ Hc1 Hs) as Hc2.
  rewrite build_post_form_args_eq, Hd, Hrn.
  pose proof (with_fields_same fields2 w2) as [C0 N0].
  assert (Ht0 : trace (snd (with_fields fields2 w2)) = trace w2)
    by (destruct fields2; reflexivity).
  destruct (with_fields fields2 w2) as [f0 w0]. cbn [snd] in *.
  cbv zeta.
  rewrite (get_auth_hit AUTH_TYPE_MAPS self (_signing_name self)
             (region_or_default self rn1) (Some (post_version self)) ∅ w0 auth)
    by (rewrite C0; exact Hc2).
  do 4 eexists. split; [exact Hc1|]. split; [reflexivity|].
  split; [split; cbn; assumption|]. split.
  - cbn [trace logged]. rewrite Ht0, <- !app_assoc. reflexivity.
  - unfold post_request, set_context. cbn [context].
    rewrite lookup_insert_eq, append_all_id. reflexivity.
Qed.

End Effects.

(** ** What an instance is built from *)

Section Construction.

Variable AUTH_TYPE_MAPS : gmap string auth_cls.
Variable add_auth : auth_instance -> ext.
Variable self : RequestSigner.

Local Abbreviation getAuth := (get_auth AUTH_TYPE_MAPS self).
Local Abbreviation signReq := (sign AUTH_TYPE_MAPS add_auth self).

(** X18. The instance a cache miss builds is of the class registered for
    the resolved version and gets the signer's credentials, whatever the
    caller passed under that name. For a class that requires a region it
    gets the [region_name] and [signing_name] parameters of the call (not
    the signer's own: a [None] region is passed on as [None]); for any other
    class these two arguments are only what the caller passed. Every other
    keyword argument is passed through. *)
Theorem get_auth_built_kwargs sn rn sv kw w auth w' :
  getAuth sn rn sv kw w = (Ok auth, w') ->
  _cache w !! key_of self sn rn sv = None ->
  auth_id auth = next_id w
  /\ AUTH_TYPE_MAPS !! version_or_default self sv = Some (auth_class auth)
  /\ auth_kwargs auth !! "credentials" = Some (KCredentials (_credentials self))
  /\ (if REQUIRES_REGION (auth_class auth)
      then auth_kwargs auth !! "region_name" = Some (kw_of_opt rn)
           /\ auth_kwargs auth !! "service_name" = Some (KStr sn)
      else auth_kwargs auth !! "region_name" = kw !! "region_name"
           /\ auth_kwargs auth !! "service_name" = kw !! "service_name")
  /\ forall k, k <> "credentials" -> k <> "region_name" -> k <> "service_name" ->
               auth_kwargs auth !! k = kw !! k.
Proof.
  intros H Hmiss.
  apply get_auth_ok_inv in H as [[Hhit _] | [_ (cls & Hr & -> & _)]];
    [congruence|].
  unfold built, build_kwargs. cbn [auth_id auth_class auth_kwargs].
  split; [reflexivity|]. split; [exact Hr|].
  destruct (REQUIRES_REGION cls).
  - split; [rewrite !lookup_insert_ne by discriminate; apply lookup_insert_eq|].
    split; [split|].
    + rewrite lookup_insert_ne by discriminate. apply lookup_insert_eq.
    + apply lookup_insert_eq.
    + intros k H1 H2 H3. rewrite !lookup_insert_ne by congruence. reflexivity.
  - split; [apply lookup_insert_eq|].
    split; [split; rewrite lookup_insert_ne by discriminate; reflexivity|].
    intros k H1 H2 H3. rewrite lookup_insert_ne by congruence. reflexivity.
Qed.

(** X19. Signing is disabled per operation by answering the sentinel: then
    [sign] returns, whatever is registered or cached and whether or not the
    signer has a region, with the request as the before-sign handlers left
    it, and the cache is as before. *)
Theorem sign_unsigned_returns op request w :
  effective_version self op = UNSIGNED ->
  exists w',
    signReq op request w
    = (Ok tt, fst (emit (_event_emitter self) (before_name self op)
                     (before_kw self op) request (dicts w)), w')
    /\ same_cache w w'
    /\ trace w' = trace w ++ [EvChooseSigner (choose_name self op) (choose_kw self);
                              EvBeforeSign (before_name self op) (before_kw self op)].
Proof.
  intros Hv. rewrite sign_eq. cbv zeta. rewrite Hv.
  eexists. split; [reflexivity|]. split; [split|]; reflexivity.
Qed.

End Construction.

(** ** Presigning and the event emitter *)

(** The signer [self] with another event emitter. *)
Definition with_emitter (em : EventEmitter) (self : RequestSigner) : RequestSigner :=
  {| _service_name := _service_name self; _region_name := _region_name self;
     _signing_name := _signing_name self;
     _signature_version := _signature_version self;
     _credentials := _credentials self; _event_emitter := em |}.

(** X20. The presign methods and [get_auth] fire no event and consult no
    handler: with any other event emitter they do the same. A choose-signer
    handler can neither redirect nor disable presigning. *)
Theorem presign_ignores_handlers AUTH_TYPE_MAPS request_dict create_request_object
    fix_s3_host add_auth prepare self em :
  (forall rd expires_in rn w,
      generate_url AUTH_TYPE_MAPS request_dict create_request_object fix_s3_host
        add_auth prepare (with_emitter em self) rd expires_in rn w
      = generate_url AUTH_TYPE_MAPS request_dict create_request_object fix_s3_host
          add_auth prepare self rd expires_in rn w)
  /\ (forall now rd fields conds expires_in rn w,
        build_post_form_args AUTH_TYPE_MAPS request_dict create_request_object
          fix_s3_host add_auth (with_emitter em self)
          now rd fields conds expires_in rn w
        = build_post_form_args AUTH_TYPE_MAPS request_dict create_request_object
            fix_s3_host add_auth self now rd fields conds expires_in rn w)
  /\ (forall sn rn sv kw w,
        get_auth AUTH_TYPE_MAPS (with_emitter em self) sn rn sv kw w
        = get_auth AUTH_TYPE_MAPS self sn rn sv kw w).
Proof. repeat split. Qed.

(** ** The further properties on sample runs *)

Definition demo_step :=
  step sample_registry string sample_create sample_fix_s3_host sample_add_auth
    sample_prepare.

Definition demo_reachable :=
  reachable sample_registry string sample_create sample_fix_s3_host
    sample_add_auth sample_prepare.

Lemma demo_step_1 : demo_step demo_signer (new_world []) demo_world1.
Proof.
  apply (step_get_auth _ _ _ _ _ _ _ _ _ "s3" (Some "us-east-1") None ∅
           (Ok demo_auth_v4)).
  vm_compute; reflexivity.
Qed.

Lemma demo_step_2 : demo_step demo_signer demo_world1 demo_world2.
Proof.
  apply (step_get_auth _ _ _ _ _ _ _ _ _ "s3" (Some "eu-west-1") None ∅
           (Ok demo_auth_eu)).
  vm_compute; reflexivity.
Qed.

Lemma demo_world2_reachable : demo_reachable demo_signer demo_world2.
Proof.
  exists []. eapply rtc_l; [apply demo_step_1|]. apply rtc_once, demo_step_2.
Qed.

Lemma cache_entries_persist_witness :
  _cache demo_world1 !! "v4.us-east-1.s3" = Some demo_auth_v4
  /\ _cache demo_world2 !! "v4.us-east-1.s3" = Some demo_auth_v4.
Proof.
  split; [vm_compute; reflexivity|].
  apply (cache_entries_persist sample_registry string sample_create
           sample_fix_s3_host sample_add_auth sample_prepare demo_signer
           "v4.us-east-1.s3" demo_auth_v4 demo_world1 demo_world2).
  - vm_compute; reflexivity.
  - apply rtc_once, demo_step_2.
Defined.

Lemma step_adds_at_most_one_witness :
  same_cache demo_world1 demo_world2
  \/ exists sn rn v kw,
       added sample_registry demo_signer sn rn v kw demo_world1 demo_world2.
Proof.
  apply (step_adds_at_most_one sample_registry string sample_create
           sample_fix_s3_host sample_add_auth sample_prepare demo_signer
           demo_world1 demo_world2).
  apply demo_step_2.
Defined.

Lemma reachable_cache_size_witness :
  size (_cache demo_world2) = next_id demo_world2 /\ next_id demo_world2 = 2.
Proof.
  split; [|reflexivity].
  apply (reachable_cache_size sample_registry string sample_create
           sample_fix_s3_host sample_add_auth sample_prepare demo_signer
           demo_world2).
  apply demo_world2_reachable.
Defined.

Lemma reachable_cache_well_built_witness :
  _cache demo_world2 !! "v4.eu-west-1.s3" = Some demo_auth_eu
  /\ well_built sample_registry demo_signer demo_auth_eu.
Proof.
  split; [vm_compute; reflexivity|].
  apply (reachable_cache_well_built sample_registry string sample_create
           sample_fix_s3_host sample_add_auth sample_prepare demo_signer
           demo_world2 "v4.eu-west-1.s3" demo_auth_eu).
  - apply demo_world2_reachable.
  - vm_compute; reflexivity.
Defined.

(** [get_auth('s3', 'us-east-1', 'v4', expires=60)]: the class of [v4]
    takes no [expires]. *)
Lemma get_auth_raise_inv_witness :
  demo_get_auth "s3" (Some "us-east-1") (Some "v4") {["expires" := KInt 60]}
    (new_world [])
  = (Raise TypeError, logged (EvCacheLookup "v4.us-east-1.s3") (new_world []))
  /\ _cache (new_world []) !! "v4.us-east-1.s3" = None
  /\ sample_registry !! "v4" = Some SigV4Auth.
Proof.
  split; [vm_compute; reflexivity|].
  destruct (get_auth_raise_inv sample_registry demo_signer
              "s3" (Some "us-east-1") (Some "v4") {["expires" := KInt 60]}
              (new_world []) TypeError
              (logged (EvCacheLookup "v4.us-east-1.s3") (new_world [])))
    as (_ & Hc & [[H _] | [(H & _) | (_ & cls & Hr & _)]]).
  - vm_compute; reflexivity.
  - discriminate H.
  - discriminate H.
  - split; [exact Hc|]. vm_compute; reflexivity.
Defined.

Definition demo_sign (self : RequestSigner) :=
  sign sample_registry sample_add_auth self "ListBuckets" sample_request.

(** The request after the default [v4] strategy signed it. *)
Definition signed_request : Request :=
  {| method := "GET"; url := "https://bucket.s3.amazonaws.com/key";
     headers := [("X-Seen", "yes")];
     params := [("Signature", "SigV4Auth")]; data := ""; context := ∅ |}.

Definition silent_world1 : world := snd (demo_sign silent_signer (new_world [])).

Lemma sign_ok_inv_witness :
  demo_sign silent_signer (new_world []) = (Ok tt, signed_request, silent_world1)
  /\ ((effective_version silent_signer "ListBuckets" = UNSIGNED
       /\ signed_request
          = fst (after_before_sign silent_signer "ListBuckets" sample_request
                   (new_world []))
       /\ silent_world1
          = after_events silent_signer "ListBuckets" sample_request (new_world []))
      \/ (exists v auth ds evs,
            effective_version silent_signer "ListBuckets" = SvStr v
            /\ _cache silent_world1 !! sign_key silent_signer v = Some auth
            /\ signed_request
               = fst (sample_add_auth auth
                        (fst (after_before_sign silent_signer "ListBuckets"
                                sample_request (new_world []))) ds)
            /\ trace silent_world1
               = trace (new_world []) ++ evs
                 ++ [EvAddAuth auth
                       (fst (after_before_sign silent_signer "ListBuckets"
                               sample_request (new_world [])))]
            /\ Forall (fun ev => forall a rq, ev <> EvAddAuth a rq) evs)).
Proof.
  split; [vm_compute; reflexivity|].
  apply (sign_ok_inv sample_registry sample_add_auth silent_signer
           "ListBuckets" sample_request (new_world [])).
  vm_compute; reflexivity.
Defined.

Lemma sign_reuses_instance_witness :
  demo_sign silent_signer (new_world []) = (Ok tt, signed_request, silent_world1)
  /\ fst (sign sample_registry sample_add_auth silent_signer "GetObject"
            sample_request silent_world1)
     = (Ok tt, signed_request)
  /\ next_id (snd (sign sample_registry sample_add_auth silent_signer "GetObject"
                     sample_request silent_world1))
     = next_id silent_world1.
Proof.
  split; [vm_compute; reflexivity|].
  destruct (sign_reuses_instance sample_registry string sample_create
              sample_fix_s3_host sample_add_auth sample_prepare silent_signer
              "ListBuckets" sample_request (new_world []) signed_request
              silent_world1 "v4" silent_world1 "GetObject" sample_request)
    as (auth & Hc & ->).
  - vm_compute; reflexivity.
  - vm_compute; reflexivity.
  - apply rtc_refl.
  - vm_compute; reflexivity.
  - assert (auth = demo_auth_v4) as ->.
    { assert (Hd : _cache silent_world1 !! sign_key silent_signer "v4"
                   = Some demo_auth_v4) by (vm_compute; reflexivity).
      congruence. }
    split; vm_compute; reflexivity.
Defined.

(** The sample registry has no [v4-presign-post]. *)
Definition v4_build_post_form_args :=
  build_post_form_args sample_registry string sample_create sample_fix_s3_host
    sample_add_auth demo_signer.

Lemma generate_url_signs_fixed_request_witness :
  demo_generate_url "https://bucket.s3.amazonaws.com/key" (Some 60%Z) None
    (new_world [])
  = (Ok "https://bucket.s3.amazonaws.com/key?Signature=HmacV1QueryAuth",
     demo_url_world)
  /\ exists auth ds evs,
       trace demo_url_world
       = trace (new_world []) ++ evs
         ++ [EvFixS3Host (split_head "-" (_signature_version s3_signer))
               (region_or_default s3_signer None);
             EvAddAuth auth
               (fst (sample_fix_s3_host (split_head "-" (_signature_version s3_signer))
                       (region_or_default s3_signer None)
                       (sample_create "https://bucket.s3.amazonaws.com/key") ds));
             EvPrepare]
       /\ _cache demo_url_world !! query_key s3_signer None = Some auth.
Proof.
  split; [vm_compute; reflexivity|].
  apply (generate_url_signs_fixed_request sample_registry string sample_create
           sample_fix_s3_host sample_add_auth sample_prepare s3_signer
           "https://bucket.s3.amazonaws.com/key" (Some 60%Z) None (new_world [])
           "https://bucket.s3.amazonaws.com/key?Signature=HmacV1QueryAuth"
           demo_url_world).
  vm_compute; reflexivity.
Defined.

Lemma build_post_form_args_request_witness :
  demo_build_post_form_args demo_now "https://bucket.s3.amazonaws.com" None
    (Some demo_conditions) 600%Z None (new_world [])
  = (Ok ("https://bucket.s3.amazonaws.com", 0), demo_post_world)
  /\ exists auth request evs,
       trace demo_post_world
       = trace (new_world []) ++ evs
         ++ [EvAddAuth auth request;
             EvFixS3Host (split_head "-" (_signature_version s3_signer))
               (region_or_default s3_signer None)]
       /\ 0 = length (dicts (new_world []))
       /\ method request = method (sample_create "https://bucket.s3.amazonaws.com")
       /\ url request = url (sample_create "https://bucket.s3.amazonaws.com")
       /\ headers request = headers (sample_create "https://bucket.s3.amazonaws.com")
       /\ params request = params (sample_create "https://bucket.s3.amazonaws.com")
       /\ data request = data (sample_create "https://bucket.s3.amazonaws.com")
       /\ context request !! "s3-presign-post-fields" = Some (CtxFields 0)
       /\ is_Some (context request !! "s3-presign-post-policy")
       /\ forall k, k <> "s3-presign-post-fields" -> k <> "s3-presign-post-policy" ->
                    context request !! k
                    = context (sample_create "https://bucket.s3.amazonaws.com") !! k.
Proof.
  split; [vm_compute; reflexivity|].
  apply (build_post_form_args_request sample_registry string sample_create
           sample_fix_s3_host sample_add_auth s3_signer demo_now
           "https://bucket.s3.amazonaws.com" None (Some demo_conditions) 600%Z None
           (new_world []) "https://bucket.s3.amazonaws.com" 0 demo_post_world).
  vm_compute; reflexivity.
Defined.

(** The query variant for the same region and signing name. *)
Definition demo_auth_v4_query : auth_instance :=
  {| auth_id := 1; auth_class := SigV4QueryAuth;
     auth_kwargs := build_kwargs sample_credentials SigV4QueryAuth "s3"
                      (Some "us-east-1") ∅ |}.

Lemma get_auth_same_instance_iff_same_version_witness :
  demo_get_auth "s3" (Some "us-east-1") None ∅ (new_world [])
  = (Ok demo_auth_v4, demo_world1)
  /\ fst (demo_get_auth "s3" (Some "us-east-1") (Some "v4-query") ∅ demo_world1)
     = Ok demo_auth_v4_query
  /\ (auth_id demo_auth_v4 = auth_id demo_auth_v4_query
      <-> version_or_default demo_signer None
          = version_or_default demo_signer (Some "v4-query")).
Proof.
  split; [vm_compute; reflexivity|].
  split; [vm_compute; reflexivity|].
  apply (get_auth_same_instance_iff_same_version sample_registry string
           sample_create sample_fix_s3_host sample_add_auth sample_prepare
           demo_signer "s3" (Some "us-east-1") None ∅ (Some "v4-query") ∅
           (new_world []) demo_world1 demo_world1
           (snd (demo_get_auth "s3" (Some "us-east-1") (Some "v4-query") ∅
                   demo_world1))
           demo_auth_v4 demo_auth_v4_query).
  - exists []. apply rtc_refl.
  - vm_compute; reflexivity.
  - apply rtc_refl.
  - vm_compute; reflexivity.
Defined.

(** The signer whose handler answers [v9], after a [get_auth] for its own
    region and signing name. *)
Definition unknown_world1 : world :=
  snd (get_auth sample_registry unknown_signer "s3" (Some "us-east-1") None ∅
         (new_world [])).

Lemma sign_unknown_version_own_use_witness :
  next_id unknown_world1 = 1
  /\ sign sample_registry sample_add_auth unknown_signer "ListBuckets"
       sample_request unknown_world1
     = (Raise (UnknownSignatureVersionError "v9"),
        fst (after_before_sign unknown_signer "ListBuckets" sample_request
               unknown_world1),
        logged (EvCacheLookup (sign_key unknown_signer "v9"))
          (after_events unknown_signer "ListBuckets" sample_request
             unknown_world1)).
Proof.
  split; [reflexivity|].
  apply (sign_unknown_version_own_use sample_registry string sample_create
           sample_fix_s3_host sample_add_auth sample_prepare unknown_signer
           [] unknown_world1 "ListBuckets" sample_request "v9").
  - apply rtc_once.
    apply (own_get_auth _ _ _ _ _ _ _ _ _ None ∅ (Ok demo_auth_v4)).
    vm_compute; reflexivity.
  - vm_compute; reflexivity.
  - vm_compute; reflexivity.
Defined.

Definition demo_later : datetime := mk_datetime 2015 11 4 9 30 0.

Lemma build_post_form_args_again_witness :
  demo_build_post_form_args demo_now "https://bucket.s3.amazonaws.com" None
    (Some demo_conditions) 600%Z None (new_world [])
  = (Ok ("https://bucket.s3.amazonaws.com", 0), demo_post_world)
  /\ datetime_add_seconds demo_later 60 = Some (mk_datetime 2015 11 4 9 31 0)
  /\ exists auth request u2 f2 w3,
       _cache demo_post_world
         !! cache_key (post_version s3_signer) (region_or_default s3_signer None)
              (_signing_name s3_signer) = Some auth
       /\ demo_build_post_form_args demo_later "https://other.s3.amazonaws.com"
            (Some 0) None 60%Z (Some "us-east-1") demo_post_world
          = (Ok (u2, f2), w3)
       /\ same_cache demo_post_world w3
       /\ trace w3
          = trace demo_post_world
            ++ [EvCacheLookup (cache_key (post_version s3_signer)
                                 (region_or_default s3_signer None)
                                 (_signing_name s3_signer));
                EvCreateRequest;
                EvAddAuth auth request;
                EvFixS3Host (split_head "-" (post_version s3_signer))
                  (region_or_default s3_signer (Some "us-east-1"))]
       /\ context request !! "s3-presign-post-policy"
          = Some (CtxPolicy
                    {| expiration := strftime ISO8601 (mk_datetime 2015 11 4 9 31 0);
                       conditions := [] |}).
Proof.
  split; [vm_compute; reflexivity|].
  split; [vm_compute; reflexivity|].
  apply (build_post_form_args_again sample_registry string sample_create
           sample_fix_s3_host sample_add_auth sample_prepare s3_signer
           demo_now "https://bucket.s3.amazonaws.com" None (Some demo_conditions)
           600%Z None (new_world []) "https://bucket.s3.amazonaws.com" 0
           demo_post_world demo_post_world
           demo_later "https://other.s3.amazonaws.com" (Some 0) None 60%Z
           (Some "us-east-1") (mk_datetime 2015 11 4 9 31 0)).
  - vm_compute; reflexivity.
  - apply rtc_refl.
  - reflexivity.
  - vm_compute; reflexivity.
Defined.

(** With no region given, a region-requiring class is built with no
    region, though the signer has one. *)
Definition demo_auth_no_region : auth_instance :=
  {| auth_id := 0; auth_class := SigV4Auth;
     auth_kwargs := build_kwargs sample_credentials SigV4Auth "s3" None ∅ |}.

Lemma get_auth_built_kwargs_witness :
  _region_name demo_signer = Some "us-east-1"
  /\ fst (demo_get_auth "s3" None (Some "v4") ∅ (new_world []))
     = Ok demo_auth_no_region
  /\ auth_id demo_auth_no_region = next_id (new_world [])
  /\ sample_registry !! version_or_default demo_signer (Some "v4")
     = Some (auth_class demo_auth_no_region)
  /\ auth_kwargs demo_auth_no_region !! "credentials"
     = Some (KCredentials (_credentials demo_signer))
  /\ (if REQUIRES_REGION (auth_class demo_auth_no_region)
      then auth_kwargs demo_auth_no_region !! "region_name" = Some (kw_of_opt None)
           /\ auth_kwargs demo_auth_no_region !! "service_name" = Some (KStr "s3")
      else auth_kwargs demo_auth_no_region !! "region_name"
           = (∅ : gmap string kwval) !! "region_name"
           /\ auth_kwargs demo_auth_no_region !! "service_name"
              = (∅ : gmap string kwval) !! "service_name")
  /\ forall k, k <> "credentials" -> k <> "region_name" -> k <> "service_name" ->
               auth_kwargs demo_auth_no_region !! k = (∅ : gmap string kwval) !! k.
Proof.
  split; [reflexivity|]. split; [vm_compute; reflexivity|].
  apply (get_auth_built_kwargs sample_registry demo_signer "s3" None (Some "v4") ∅
           (new_world []) demo_auth_no_region
           (snd (demo_get_auth "s3" None (Some "v4") ∅ (new_world [])))).
  - vm_compute; reflexivity.
  - vm_compute; reflexivity.
Defined.

Lemma sign_unsigned_returns_witness :
  effective_version unsigned_signer "ListBuckets" = UNSIGNED
  /\ exists w',
       sign sample_registry sample_add_auth unsigned_signer "ListBuckets"
         sample_request demo_world1
       = (Ok tt, fst (emit (_event_emitter unsigned_signer)
                        (before_name unsigned_signer "ListBuckets")
                        (before_kw unsigned_signer "ListBuckets")
                        sample_request (dicts demo_world1)), w')
       /\ same_cache demo_world1 w'
       /\ trace w'
          = trace demo_world1
            ++ [EvChooseSigner (choose_name unsigned_signer "ListBuckets")
                  (choose_kw unsigned_signer);
                EvBeforeSign (before_name unsigned_signer "ListBuckets")
                  (before_kw unsigned_signer "ListBuckets")].
Proof.
  split; [vm_compute; reflexivity|].
  apply (sign_unsigned_returns sample_registry sample_add_auth unsigned_signer
           "ListBuckets" sample_request demo_world1).
  vm_compute; reflexivity.
Defined.

(** The state of the region-less signer after a [sign] that raised. *)
Definition regionless_world1 : world :=
  snd (demo_sign regionless_signer (new_world [])).

Lemma sign_no_region_own_use_witness :
  _region_name regionless_signer = None
  /\ sample_registry !! "v4" = Some SigV4Auth
  /\ sign sample_registry sample_add_auth regionless_signer "GetObject"
       sample_request regionless_world1
     = (Raise NoRegionError,
        fst (after_before_sign regionless_signer "GetObject" sample_request
               regionless_world1),
        logged (EvCacheLookup (sign_key regionless_signer "v4"))
          (after_events regionless_signer "GetObject" sample_request
             regionless_world1)).
Proof.
  split; [reflexivity|]. split; [vm_compute; reflexivity|].
  apply (sign_no_region_own_use sample_registry string sample_create
           sample_fix_s3_host sample_add_auth sample_prepare regionless_signer
           [] regionless_world1 "GetObject" sample_request "v4" SigV4Auth).
  - apply rtc_once.
    apply (own_sign _ _ _ _ _ _ _ _ _ "ListBuckets" sample_request
             (Raise NoRegionError) sample_request).
    vm_compute; reflexivity.
  - reflexivity.
  - vm_compute; reflexivity.
  - vm_compute; reflexivity.
  - reflexivity.
Defined.

(** A signer configured with a version that has no presign variants. *)
Definition v9_signer : RequestSigner :=
  sample_signer (Some "us-east-1") "s3" "v9" no_handlers.

Lemma generate_url_unknown_variant_own_use_witness :
  sample_registry !! query_version v9_signer = None
  /\ generate_url sample_registry string sample_create sample_fix_s3_host
       sample_add_auth sample_prepare v9_signer
       "https://bucket.s3.amazonaws.com/key" (Some 60%Z) None (new_world [])
     = (Raise (UnknownSignatureVersionError "v9-query"),
        logged (EvCacheLookup "v9-query.us-east-1.s3") (new_world [])).
Proof.
  split; [vm_compute; reflexivity|].
  apply (generate_url_unknown_variant_own_use sample_registry string sample_create
           sample_fix_s3_host sample_add_auth sample_prepare v9_signer
           [] (new_world []) "https://bucket.s3.amazonaws.com/key" (Some 60%Z) None).
  - apply rtc_refl.
  - reflexivity.
  - vm_compute; reflexivity.
Defined.

Lemma build_post_form_args_unknown_variant_own_use_witness :
  sample_registry !! post_version demo_signer = None
  /\ datetime_add_seconds demo_now 3600 = Some (mk_datetime 2015 11 3 13 0 0)
  /\ v4_build_post_form_args demo_now "https://bucket.s3.amazonaws.com" None
       None 3600%Z None demo_world1
     = (Raise (UnknownSignatureVersionError "v4-presign-post"),
        logged (EvCacheLookup "v4-presign-post.us-east-1.s3")
          (snd (with_fields None demo_world1))).
Proof.
  split; [vm_compute; reflexivity|]. split; [vm_compute; reflexivity|].
  apply (build_post_form_args_unknown_variant_own_use sample_registry string
           sample_create sample_fix_s3_host sample_add_auth sample_prepare
           demo_signer [] demo_world1 demo_now "https://bucket.s3.amazonaws.com"
           None None 3600%Z None (mk_datetime 2015 11 3 13 0 0)).
  - apply rtc_once.
    apply (own_get_auth _ _ _ _ _ _ _ _ _ None ∅ (Ok demo_auth_v4)).
    vm_compute; reflexivity.
  - reflexivity.
  - vm_compute; reflexivity.
  - vm_compute; reflexivity.
Defined.
